(** * Real-time cognitive-load pipeline: a shallow embedding of
      [real_time_prediction.py] and the properties of its specification.

    Numeric samples are modelled as exact rationals ([Q]): every finite
    floating-point or integer sample is a rational, comparisons are exact,
    and sums, differences and quotients are the exact ones.  Class labels and
    channel names are byte strings holding ASCII text. *)

From Stdlib Require Import QArith Qabs Qminmax Lqa Lia Bool Ascii String List Sorted.
From stdpp Require Import gmap strings list.
Import ListNotations.

Local Open Scope string_scope.
Local Open Scope list_scope.
Local Open Scope nat_scope.

(** ** Numeric helpers *)

(** [a < b] on samples, as a boolean. *)
Definition Qlt_bool (a b : Q) : bool := negb (Qle_bool b a).

(** ** Peak detection

    [compute_bva] calls [scipy.signal.find_peaks] with no optional
    condition, which returns the output of scipy's [_local_maxima_1d]: a
    left-to-right scan in which a sample that is higher than its predecessor
    opens a plateau, the scan looks ahead to the first later sample that
    differs (stopping at the last index), and a peak is recorded at the
    middle of the plateau (rounded down) when that sample is lower.  The
    first and the last sample are never peaks.  The two loops below are the
    two [while] loops of that routine; [fuel] bounds their iterations. *)

(** Inner loop: [while i_ahead < i_max and x[i_ahead] == x[i]: i_ahead += 1]. *)
Fixpoint look_ahead (fuel : nat) (x : list Q) (i i_max i_ahead : nat) : nat :=
  match fuel with
  | O => i_ahead
  | S fuel' =>
      if (i_ahead <? i_max) && Qeq_bool (nth i_ahead x 0%Q) (nth i x 0%Q)
      then look_ahead fuel' x i i_max (S i_ahead)
      else i_ahead
  end.

(** [(left_edge + right_edge) // 2]. *)
Definition midpoint (left_edge right_edge : nat) : nat :=
  Nat.div (left_edge + right_edge) 2.
Arguments midpoint : simpl never.

(** Outer loop: [while i < i_max: ...; i += 1], collecting the midpoints. *)
Fixpoint local_maxima_loop (fuel : nat) (x : list Q) (i_max i : nat) : list nat :=
  match fuel with
  | O => []
  | S fuel' =>
      if i <? i_max then
        if Qlt_bool (nth (i - 1) x 0%Q) (nth i x 0%Q) then
          let i_ahead := look_ahead (length x) x i i_max (i + 1) in
          if Qlt_bool (nth i_ahead x 0%Q) (nth i x 0%Q) then
            midpoint i (i_ahead - 1)
              :: local_maxima_loop fuel' x i_max (i_ahead + 1)
          else local_maxima_loop fuel' x i_max (i + 1)
        else local_maxima_loop fuel' x i_max (i + 1)
      else []
  end.

(** [i = 1], [i_max = x.shape[0] - 1]; the scan needs fewer than
    [length x] iterations (lemma [local_maxima_loop_fuel]). *)
Definition local_maxima_1d (x : list Q) : list nat :=
  local_maxima_loop (length x) x (length x - 1) 1.

Definition find_peaks (x : list Q) : list nat := local_maxima_1d x.

(** ** [compute_bva] *)

Definition compute_bva (ppg_values : list Q) : option Q :=
  if length ppg_values <? 10 then None
  else
    let ppg_array := ppg_values in
    let peaks := find_peaks ppg_array in
    let troughs := find_peaks (map Qopp ppg_array) in
    if (length peaks =? 0) || (length troughs =? 0) then None
    else
      let last_peak := nth (List.last peaks 0) ppg_array 0%Q in
      let last_trough := nth (List.last troughs 0) ppg_array 0%Q in
      Some (Qabs (last_peak - last_trough)).

(** Peaks and troughs of a sample sequence, for stating what the scan
    finds. *)

Definition strict_local_max (x : list Q) (j : nat) : Prop :=
  1 <= j /\ j + 1 < length x /\
  (nth (j - 1) x 0 < nth j x 0)%Q /\ (nth (j + 1) x 0 < nth j x 0)%Q.

Definition strict_local_min (x : list Q) (j : nat) : Prop :=
  1 <= j /\ j + 1 < length x /\
  (nth j x 0 < nth (j - 1) x 0)%Q /\ (nth j x 0 < nth (j + 1) x 0)%Q.

(** A flat top: samples [l..r] are equal, strictly above the sample before
    and the sample after. *)
Definition flat_top (x : list Q) (l r : nat) : Prop :=
  1 <= l /\ l <= r /\ r + 1 < length x /\
  (nth (l - 1) x 0 < nth l x 0)%Q /\
  (forall k, l <= k <= r -> (nth k x 0 == nth l x 0)%Q) /\
  (nth (r + 1) x 0 < nth l x 0)%Q.

Definition strictly_increasing (x : list Q) : Prop :=
  forall i, i + 1 < length x -> (nth i x 0 < nth (i + 1) x 0)%Q.

Definition strictly_decreasing (x : list Q) : Prop :=
  forall i, i + 1 < length x -> (nth (i + 1) x 0 < nth i x 0)%Q.

(** ** Outcomes of fallible operations

    A Python operation either returns a value or raises an [Exception]. *)

Inductive exn : Type :=
| ZeroDivisionError
| IndexError
| KeyError (key : string)
| ValueError
| ImportError
| OtherException (what : string).

Inductive result (A : Type) : Type :=
| Ok (a : A)
| Raise (e : exn).
Arguments Ok {A} a.
Arguments Raise {A} e.

(** Sequencing: the first [Raise] ends the computation. *)
Definition bind_r {A B} (m : result A) (k : A -> result B) : result B :=
  match m with
  | Ok a => k a
  | Raise e => Raise e
  end.

Notation "'let?' x := m 'in' k" := (bind_r m (fun x => k))
  (at level 10, x pattern, m at level 100, k at level 200).

(** ** Observable effects: calls into the scoring collaborators, datagrams
    handed to the socket and lines printed. *)

Definition features : Type := (Q * Q * Q)%type.

Inductive scoring_call : Type :=
| ImportPandas
| BvaTransform (bva : Q)
| StdTransform (input_data : features)
| ClfPredict (features_scaled : features)
| InverseTransform (prediction_num : Z).

Inductive log_line : Type :=
| PredictionFailed (e : exn)
| Predicted (cognitive_load : string)
| SentUnityAlert (message : string)
| FailedUnityAlert (e : exn).

Inductive event : Type :=
| Scoring (c : scoring_call)
| SendTo (payload : list Byte.byte) (ip : string) (port : Z)
| Print (line : log_line).

(** A computation with its trace of effects; after [Raise] nothing more
    happens (the exception unwinds to the nearest [try]). *)
Definition traced (A : Type) : Type := (list event * result A)%type.

Definition ret {A} (a : A) : traced A := ([], Ok a).

Definition bind {A B} (m : traced A) (k : A -> traced B) : traced B :=
  match m with
  | (tr, Ok a) => let (tr', r) := k a in (tr ++ tr', r)
  | (tr, Raise e) => (tr, Raise e)
  end.

Notation "'do' x <- m ; k" := (bind m (fun x => k))
  (at level 10, x pattern, m at level 100, k at level 200).

Definition lift {A} (r : result A) : traced A := ([], r).
Definition emit (ev : event) : traced unit := ([ev], Ok tt).
Definition call {A} (ev : event) (r : result A) : traced A := ([ev], r).

(** [try: body  except Exception as e: handler e]. *)
Definition try_except {A} (body : traced A) (handler : exn -> traced A) : traced A :=
  match body with
  | (tr, Ok a) => (tr, Ok a)
  | (tr, Raise e) => let (tr', r) := handler e in (tr ++ tr', r)
  end.

(** The datagrams of a trace, in order. *)
Fixpoint datagrams (tr : list event) : list (list Byte.byte) :=
  match tr with
  | [] => []
  | SendTo payload _ _ :: tr' => payload :: datagrams tr'
  | _ :: tr' => datagrams tr'
  end.

(** The scoring calls of a trace, in order. *)
Fixpoint scoring_calls (tr : list event) : list scoring_call :=
  match tr with
  | [] => []
  | Scoring c :: tr' => c :: scoring_calls tr'
  | _ :: tr' => scoring_calls tr'
  end.

(** ** Strings *)

(** [str.upper] on ASCII text. *)
Definition upper_ascii (c : ascii) : ascii :=
  let n := nat_of_ascii c in
  if (97 <=? n) && (n <=? 122) then ascii_of_nat (n - 32) else c.

Fixpoint upper (s : string) : string :=
  match s with
  | EmptyString => EmptyString
  | String c s' => String (upper_ascii c) (upper s')
  end.

(** [str.encode()]: the UTF-8 bytes of ASCII text are its characters. *)
Definition encode (s : string) : list Byte.byte := list_byte_of_string s.

(** [s.split(sep)] for a one-character separator. *)
Fixpoint split (sep : ascii) (s : string) : list string :=
  match s with
  | EmptyString => [EmptyString]
  | String c s' =>
      if Ascii.eqb c sep then EmptyString :: split sep s'
      else match split sep s' with
           | w :: ws => String c w :: ws
           | [] => [String c EmptyString]
           end
  end.

(** ** Module-level state and configuration *)

Definition UNITY_IP : string := "127.0.0.1".
Definition UNITY_PORT : Z := 8052%Z.
Definition ALERT_THRESHOLD : nat := 9.

Definition fieldnames : list string :=
  [ "timestamp"; "ACC:X"; "ACC:Y"; "ACC:Z";
    "PPG:RED"; "PPG:IR"; "PPG:GRN"; "EDA"; "HUMIDITY"; "TEMP"; "T1"; "HR"; "BVA";
    "GYRO:X"; "GYRO:Y"; "GYRO:Z"; "MAG:X"; "MAG:Y"; "MAG:Z" ].

(** [deque(maxlen=n).append(v)]: the oldest entry leaves when full. *)
Definition deque_append {A} (maxlen : nat) (d : list A) (v : A) : list A :=
  let d' := d ++ [v] in
  if maxlen <? length d' then tl d' else d'.

(** [data_buffer[key]] on the [defaultdict]: a missing key is created with
    an empty deque. *)
Definition getitem (data_buffer : gmap string (list Q)) (key : string)
  : list Q * gmap string (list Q) :=
  match data_buffer !! key with
  | Some d => (d, data_buffer)
  | None => ([], <[key := []]> data_buffer)
  end.

(** The samples a channel holds. *)
Definition samples (data_buffer : gmap string (list Q)) (key : string) : list Q :=
  fst (getitem data_buffer key).

(** ** The OSC handler *)

Definition generic_handler (address : string) (args : list Q)
    (data_buffer : gmap string (list Q)) : result (gmap string (list Q)) :=
  let signal := List.last (split "/" address) "" in
  match args with
  | [] => Raise IndexError
  | value :: _ =>
      let signal := if String.eqb signal "TEMP2" then "T1" else signal in
      let (d, data_buffer) := getitem data_buffer signal in
      Ok (<[signal := deque_append 500 d value]> data_buffer)
  end.

(** ** The scoring collaborators

    The classifier, the two scalers and the label encoder are opaque: each
    is a function that returns or raises. *)

Record classifier : Type := { predict : features -> result Z }.
Record standard_scaler : Type := { std_transform : features -> result features }.
Record bva_scaler_t : Type := { bva_transform : Q -> result Q }.
Record label_encoder_t : Type := { inverse_transform : Z -> result string }.

(** What [joblib.load] finds for each of the four artifacts. *)
Record artifacts : Type := {
  random_forest_model_pkl : result classifier;
  standard_scaler_pkl : result standard_scaler;
  bva_scaler_pkl : result bva_scaler_t;
  label_encoder_pkl : result label_encoder_t
}.

(** The four module-level globals. *)
Record ml_components : Type := {
  clf : option classifier;
  std_scaler : option standard_scaler;
  bva_scaler : option bva_scaler_t;
  label_encoder : option label_encoder_t
}.

Definition load_ml_components (a : artifacts) : ml_components :=
  match (let? c := random_forest_model_pkl a in
         let? s := standard_scaler_pkl a in
         let? b := bva_scaler_pkl a in
         let? l := label_encoder_pkl a in
         Ok (c, s, b, l)) with
  | Ok (c, s, b, l) =>
      {| clf := Some c; std_scaler := Some s;
         bva_scaler := Some b; label_encoder := Some l |}
  | Raise _ =>
      {| clf := None; std_scaler := None;
         bva_scaler := None; label_encoder := None |}
  end.

(** [None in (clf, std_scaler, bva_scaler, label_encoder)]. *)
Definition none_in (ml : ml_components) : bool :=
  match clf ml, std_scaler ml, bva_scaler ml, label_encoder ml with
  | Some _, Some _, Some _, Some _ => false
  | _, _, _, _ => true
  end.

(** The body of the [try] block of [predict_cognitive_load]. *)
Definition scoring (pandas : result unit) (c : classifier) (s : standard_scaler)
    (b : bva_scaler_t) (l : label_encoder_t) (eda temp bva : Q) : traced string :=
  do _ <- call (Scoring ImportPandas) pandas;
  do bva' <- call (Scoring (BvaTransform bva)) (bva_transform b bva);
  let input_data := (eda, temp, bva') in
  do features_scaled <- call (Scoring (StdTransform input_data)) (std_transform s input_data);
  do prediction_num <- call (Scoring (ClfPredict features_scaled)) (predict c features_scaled);
  call (Scoring (InverseTransform prediction_num)) (inverse_transform l prediction_num).

Definition predict_cognitive_load (pandas : result unit) (ml : ml_components)
    (eda temp bva : Q) : traced string :=
  match clf ml, std_scaler ml, bva_scaler ml, label_encoder ml with
  | Some c, Some s, Some b, Some l =>
      try_except (scoring pandas c s b l eda temp bva)
        (fun e => do _ <- emit (Print (PredictionFailed e)); ret "PREDICTION_ERROR")
  | _, _, _, _ => ret "MODEL_NOT_LOADED"
  end.

(** ** [MinMaxScaler] on one feature

    sklearn's [MinMaxScaler(feature_range=(lo, hi)).fit_transform] on a
    column: [scale_ = (hi - lo) / handle_zeros(data_max - data_min)],
    [min_ = lo - data_min * scale_], and each value becomes
    [x * scale_ + min_]; a range below ten machine epsilons counts as
    constant and is replaced by 1.  An empty column is refused. *)

Definition float_eps : Q := 1 # (2 ^ 52).

Definition handle_zeros_in_scale (scale : Q) : Q :=
  if Qlt_bool scale (10 * float_eps)%Q then 1%Q else scale.

Definition fit_transform (feature_range : Q * Q) (column : list Q) : result (list Q) :=
  match column with
  | [] => Raise ValueError
  | x0 :: rest =>
      let data_min := fold_left Qmin rest x0 in
      let data_max := fold_left Qmax rest x0 in
      let data_range := (data_max - data_min)%Q in
      let scale_ := ((snd feature_range - fst feature_range)
                     / handle_zeros_in_scale data_range)%Q in
      let min_ := (fst feature_range - data_min * scale_)%Q in
      Ok (map (fun x => (x * scale_ + min_)%Q) column)
  end.

(** ** One aggregation cycle *)

(** [xs[i]]. *)
Definition index {A} (xs : list A) (i : nat) : result A :=
  match xs !! i with
  | Some x => Ok x
  | None => Raise IndexError
  end.

(** [row[key]] on a plain dict. *)
Definition row_get (row : gmap string (option Q)) (key : string) : result (option Q) :=
  match row !! key with
  | Some v => Ok v
  | None => Raise (KeyError key)
  end.

(** [sum(d)]. *)
Definition py_sum (d : list Q) : Q := fold_left Qplus d 0%Q.

(** [a / n] for a count [n]. *)
Definition truediv (a : Q) (n : nat) : result Q :=
  if n =? 0 then Raise ZeroDivisionError
  else Ok (a / inject_Z (Z.of_nat n))%Q.

(** The [for key in fieldnames[1:]] loop. *)
Fixpoint aggregate_channels (keys : list string) (row : gmap string (option Q))
    (data_buffer : gmap string (list Q))
  : result (gmap string (option Q) * gmap string (list Q)) :=
  match keys with
  | [] => Ok (row, data_buffer)
  | key :: keys' =>
      if String.eqb key "BVA" then aggregate_channels keys' row data_buffer
      else
        let (d, data_buffer) := getitem data_buffer key in
        match d with
        | _ :: _ =>
            let? mean := truediv (py_sum d) (length d) in
            aggregate_channels keys' (<[key := Some mean]> row) (<[key := []]> data_buffer)
        | [] => aggregate_channels keys' (<[key := None]> row) data_buffer
        end
  end.

Record prediction_data_t : Type := {
  pd_BVA : option Q;
  pd_EDA : option Q;
  pd_Temp : option Q
}.

(** The [with lock:] block of one cycle. *)
Definition locked_section (timestamp : Q) (data_buffer : gmap string (list Q))
  : result (gmap string (option Q) * prediction_data_t * gmap string (list Q)) :=
  let row : gmap string (option Q) := {[ "timestamp" := Some timestamp ]} in
  let (ppg_ir_values, data_buffer) := getitem data_buffer "PPG:IR" in
  let bva_value := compute_bva ppg_ir_values in
  let? bva_scaled :=
    match bva_value with
    | Some v =>
        let? scaled := fit_transform (0, 1)%Q [v] in
        let? s := index scaled 0 in
        Ok (Some s)
    | None => Ok None
    end in
  let row := <["BVA" := bva_value]> row in
  let? (row, data_buffer) := aggregate_channels (tl fieldnames) row data_buffer in
  let (_, data_buffer) := getitem data_buffer "PPG:IR" in
  let data_buffer := <["PPG:IR" := []]> data_buffer in
  let? eda := row_get row "EDA" in
  let? temp := row_get row "T1" in
  Ok (row, {| pd_BVA := bva_scaled; pd_EDA := eda; pd_Temp := temp |}, data_buffer).

(** ** Alerting *)

(** The socket: what [sendto] does with a payload. *)
Definition socket : Type := list Byte.byte -> result unit.

Definition send_unity_alert (unity_socket : socket) (message : string) : traced unit :=
  try_except
    (do _ <- call (SendTo (encode message) UNITY_IP UNITY_PORT)
               (unity_socket (encode message));
     emit (Print (SentUnityAlert message)))
    (fun e => emit (Print (FailedUnityAlert e))).

(** Lines 202-211: append the label to [last_predictions], then alert and
    clear when ten entries are all the same. *)
Definition update_history (unity_socket : socket) (last_predictions : list string)
    (cognitive_load : string) : traced (list string) :=
  let last_predictions := deque_append 10 last_predictions cognitive_load in
  if 10 <=? length last_predictions then
    let unique_preds : gset string := list_to_set last_predictions in
    if size unique_preds =? 1 then
      let alert_message := String.append "ALERT|" (upper cognitive_load) in
      do _ <- send_unity_alert unity_socket alert_message;
      ret []
    else ret last_predictions
  else ret last_predictions.

(** Feeding labels one after the other. *)
Fixpoint feed (unity_socket : socket) (labels : list string)
    (last_predictions : list string) : traced (list string) :=
  match labels with
  | [] => ret last_predictions
  | l :: labels' =>
      do h <- update_history unity_socket last_predictions l;
      feed unity_socket labels' h
  end.

(** ** The process state and the periodic loop *)

Record world : Type := {
  data_buffer : gmap string (list Q);
  last_predictions : list string;
  csv_file : list (gmap string (option Q));
  cogload_file : list (Q * Q * Q);
  prediction_file : list (Q * Q * Q * Q * string)
}.

(** What the process finds around it: the loaded globals, the pandas
    import and the socket. *)
Record environment : Type := {
  ml : ml_components;
  pandas : result unit;
  unity_socket : socket
}.

(** One iteration of the [while True] loop of [aggregate_and_save], after
    the sleep; file writes succeed. *)
Definition aggregate_iteration (env : environment) (timestamp : Q) (w : world)
  : traced world :=
  do (row, prediction_data, buf) <- lift (locked_section timestamp (data_buffer w));
  let csv := csv_file w ++ [row] in
  match pd_EDA prediction_data, pd_Temp prediction_data, pd_BVA prediction_data with
  | Some eda, Some temp, Some bva =>
      let cog := cogload_file w ++ [(eda, temp, bva)] in
      do cognitive_load <- predict_cognitive_load (pandas env) (ml env) eda temp bva;
      let prd := prediction_file w ++ [(timestamp, eda, temp, bva, cognitive_load)] in
      do _ <- emit (Print (Predicted cognitive_load));
      do history <- update_history (unity_socket env) (last_predictions w) cognitive_load;
      ret {| data_buffer := buf; last_predictions := history;
             csv_file := csv; cogload_file := cog; prediction_file := prd |}
  | _, _, _ =>
      ret {| data_buffer := buf; last_predictions := last_predictions w;
             csv_file := csv; cogload_file := cogload_file w;
             prediction_file := prediction_file w |}
  end.

(** An inbound message; a handler that raises leaves the state as it was. *)
Definition receive (address : string) (args : list Q) (w : world) : world :=
  match generic_handler address args (data_buffer w) with
  | Ok buf =>
      {| data_buffer := buf; last_predictions := last_predictions w;
         csv_file := csv_file w; cogload_file := cogload_file w;
         prediction_file := prediction_file w |}
  | Raise _ => w
  end.

Definition receive_all (msgs : list (string * Q)) (w : world) : world :=
  fold_left (fun w m => receive (fst m) [snd m] w) msgs w.

(** Whether the cycle that starts in [w] has a full feature vector. *)
Definition full_vector (w : world) : bool :=
  match samples (data_buffer w) "EDA", samples (data_buffer w) "T1",
        compute_bva (samples (data_buffer w) "PPG:IR") with
  | _ :: _, _ :: _, Some _ => true
  | _, _, _ => false
  end.

(** [n] cycles in a row with a full feature vector each, with any inbound
    messages before, between and after them. *)
Inductive full_cycles (ml0 : ml_components) : nat -> world -> list event -> world -> Prop :=
| full_cycles_done w :
    full_cycles ml0 0 w [] w
| full_cycles_receive n w address args tr w' :
    full_cycles ml0 n (receive address args w) tr w' ->
    full_cycles ml0 n w tr w'
| full_cycles_tick n w env timestamp tr1 w1 tr w' :
    ml env = ml0 ->
    full_vector w = true ->
    aggregate_iteration env timestamp w = (tr1, Ok w1) ->
    full_cycles ml0 n w1 tr w' ->
    full_cycles ml0 (S n) w (tr1 ++ tr) w'.

(** The channels the loop of the locked section aggregates. *)
Definition tracked_channels : list string :=
  filter (fun key => key <> "BVA") (tl fieldnames).

(** The mean as the loop computes it, [sum(d) / len(d)], or the missing
    marker. *)
Definition channel_mean (d : list Q) : option Q :=
  match d with
  | [] => None
  | _ :: _ => Some (py_sum d / inject_Z (Z.of_nat (length d)))%Q
  end.

(** A socket that always sends, and one that always fails. *)
Definition working_socket : socket := fun _ => Ok tt.
Definition broken_socket : socket := fun _ => Raise (OtherException "unreachable").

(** The condition under which lines 206-211 send an alert. *)
Definition alert_fires (last_predictions : list string) (cognitive_load : string) : bool :=
  let h := deque_append 10 last_predictions cognitive_load in
  (10 <=? length h) && (size (list_to_set h : gset string) =? 1).


(** ** Concrete inputs *)

(** The sample sequence of the specification's order-sensitivity example. *)
Definition spec_example : list Q :=
  [1; 5; 2; 8; 3; 9; 1; 6; 2; 7]%Q.

(** A sequence with a flat top after its only sharp peak. *)
Definition flat_top_example : list Q :=
  [0; 3; 0; 1; 1; 0; 0; 0; 0; 0]%Q.

Definition rising_example : list Q :=
  [1; 2; 3; 4; 5; 6; 7; 8; 9; 10; 11; 12]%Q.

Definition empty_world : world :=
  {| data_buffer := ∅; last_predictions := [];
     csv_file := []; cogload_file := []; prediction_file := [] |}.

Definition unloaded_ml : ml_components :=
  {| clf := None; std_scaler := None; bva_scaler := None; label_encoder := None |}.

(** Stub collaborators: identity scalers, a classifier that answers class 1
    or raises, and an encoder that names every class "high". *)
Definition stub_ml (c : classifier) : ml_components :=
  {| clf := Some c;
     std_scaler := Some {| std_transform := fun f => Ok f |};
     bva_scaler := Some {| bva_transform := fun b => Ok b |};
     label_encoder := Some {| inverse_transform := fun _ => Ok "high" |} |}.

Definition constant_classifier : classifier :=
  {| predict := fun _ => Ok 1%Z |}.

Definition failing_classifier : classifier :=
  {| predict := fun _ => Raise (OtherException "shape mismatch") |}.

Definition stub_env (ml0 : ml_components) (sock : socket) : environment :=
  {| ml := ml0; pandas := Ok tt; unity_socket := sock |}.

(** The messages of one cycle with every feature present: ten samples on
    [PPG:IR], one on [EDA] and one on [TEMP2]. *)
Definition cycle_messages : list (string * Q) :=
  map (fun v => ("/EmotiBit/0/PPG:IR", v)) spec_example
  ++ [("/EmotiBit/0/EDA", 1 # 2); ("/EmotiBit/0/TEMP2", 30)]%Q.

(** The same cycle with the temperature sent on [TEMP] instead. *)
Definition cycle_messages_TEMP : list (string * Q) :=
  map (fun v => ("/EmotiBit/0/PPG:IR", v)) spec_example
  ++ [("/EmotiBit/0/EDA", 1 # 2); ("/EmotiBit/0/TEMP", 30)]%Q.

(** [n] cycles, each after the same messages, checking that each has a full
    feature vector. *)
Fixpoint run_full_cycles (env : environment) (msgs : list (string * Q)) (n : nat)
    (w : world) : option (list event * world) :=
  match n with
  | O => Some ([], w)
  | S n' =>
      let w0 := receive_all msgs w in
      if full_vector w0 then
        match aggregate_iteration env 0%Q w0 with
        | (tr1, Ok w1) =>
            match run_full_cycles env msgs n' w1 with
            | Some (tr, w') => Some (tr1 ++ tr, w')
            | None => None
            end
        | (_, Raise _) => None
        end
      else None
  end.

(** ** Startup, and the process as a sequence of atomic steps *)

(** The header lines [initialize_files] writes. *)
Definition csv_header : list string := fieldnames.
Definition cogload_header : list string := ["EDA"; "Temp"; "BVA"].
Definition prediction_header : list string :=
  ["timestamp"; "EDA"; "Temp"; "BVA"; "CognitiveLoad"].

(** [initialize_files]: each file is opened in mode [w], which discards
    what it held, and receives its header; the file fields of [world] hold
    the rows below the header. *)
Definition initialize_files (w : world) : world :=
  {| data_buffer := data_buffer w; last_predictions := last_predictions w;
     csv_file := []; cogload_file := []; prediction_file := [] |}.

(** The handler and the locked section exclude each other, and the rest of
    a cycle does not touch the buffers: a run of the process is a sequence
    of inbound messages and loop iterations. *)
Inductive step : Type :=
| Recv (address : string) (args : list Q)
| Tick (env : environment) (timestamp : Q).

Definition run_step (s : step) (w : world) : traced world :=
  match s with
  | Recv address args => ret (receive address args w)
  | Tick env timestamp => aggregate_iteration env timestamp w
  end.

Fixpoint run (steps : list step) (w : world) : traced world :=
  match steps with
  | [] => ret w
  | s :: steps' => do w1 <- run_step s w; run steps' w1
  end.

(** The number of loop iterations among the steps. *)
Fixpoint ticks (steps : list step) : nat :=
  match steps with
  | [] => 0
  | Recv _ _ :: steps' => ticks steps'
  | Tick _ _ :: steps' => S (ticks steps')
  end.

(** The channel a message is stored in: lines 64 to 67 of the handler. *)
Definition signal_of (address : string) : string :=
  let signal := List.last (split "/" address) "" in
  if String.eqb signal "TEMP2" then "T1" else signal.

(** [sep.join(l)], and whether a character occurs in a string. *)
Fixpoint join (sep : ascii) (l : list string) : string :=
  match l with
  | [] => ""
  | w :: ws =>
      match ws with
      | [] => w
      | _ :: _ => String.append w (String sep (join sep ws))
      end
  end.

Fixpoint contains (c : ascii) (s : string) : bool :=
  match s with
  | EmptyString => false
  | String c' s' => Ascii.eqb c' c || contains c s'
  end.

(** No channel holds more than 500 samples. *)
Definition buffers_bounded (buf : gmap string (list Q)) : Prop :=
  forall k, length (samples buf k) <= 500.

(** Concrete runs: 501 numbered samples on one channel, and eleven cycles
    with every feature present. *)
Definition flood : list step :=
  map (fun n => Recv "/EmotiBit/0/EDA" [inject_Z (Z.of_nat n)]) (seq 0 501).

Definition cycle_steps (env : environment) : list step :=
  map (fun m => Recv (fst m) [snd m]) cycle_messages ++ [Tick env 0%Q].

Definition eleven_cycles (env : environment) : list step :=
  concat (replicate 11 (cycle_steps env)).

(** What a run leaves behind: the datagrams sent, the alert history and the
    number of prediction rows. *)
Definition outcome (r : traced world) : list (list Byte.byte) * list string * nat :=
  match r with
  | (tr, Ok w) => (datagrams tr, last_predictions w, length (prediction_file w))
  | (tr, Raise _) => (datagrams tr, [], 0)
  end.

(** A change of gain and offset of the signal. *)
Definition affine (k c a : Q) : Q := (k * a + c)%Q.

(** ** Proof automation *)

(** Closes goals about membership of a key in [key :: keys]. *)
Ltac key_solver :=
  rewrite ?elem_of_cons in *; intuition congruence.

(** * Properties *)

(** ** Numeric helpers *)

Lemma Qlt_bool_true (a b : Q) : Qlt_bool a b = true <-> (a < b)%Q.
Proof.
  unfold Qlt_bool. rewrite negb_true_iff, <- not_true_iff_false, Qle_bool_iff.
  split; [apply Qnot_le_lt | apply Qlt_not_le].
Qed.

Lemma Qlt_bool_false (a b : Q) : Qlt_bool a b = false <-> (b <= a)%Q.
Proof.
  unfold Qlt_bool. rewrite negb_false_iff. apply Qle_bool_iff.
Qed.

Lemma Qeq_bool_true (a b : Q) : Qeq_bool a b = true <-> (a == b)%Q.
Proof. apply Qeq_bool_iff. Qed.

Lemma Qeq_bool_false (a b : Q) : Qeq_bool a b = false <-> ~ (a == b)%Q.
Proof.
  rewrite <- not_true_iff_false, Qeq_bool_iff. tauto.
Qed.

(** ** Peak detection *)

Section PeakScan.
Variable x : list Q.
Variable i : nat.
Variable i_max : nat.

Lemma look_ahead_ge (fuel a : nat) : a <= look_ahead fuel x i i_max a.
Proof.
  revert a. induction fuel as [| fuel IH]; intros a; simpl; [lia |].
  destruct ((a <? i_max) && _); [| lia].
  specialize (IH (S a)). lia.
Qed.

Lemma look_ahead_le (fuel a : nat) :
  a <= i_max -> look_ahead fuel x i i_max a <= i_max.
Proof.
  revert a. induction fuel as [| fuel IH]; intros a Ha; simpl; [lia |].
  destruct (Nat.ltb_spec a i_max); simpl; [| lia].
  destruct (Qeq_bool _ _); [apply IH; lia | lia].
Qed.

Lemma look_ahead_plateau (fuel a k : nat) :
  a <= k < look_ahead fuel x i i_max a -> (nth k x 0 == nth i x 0)%Q.
Proof.
  revert a. induction fuel as [| fuel IH]; intros a Hk; simpl in Hk; [lia |].
  destruct (a <? i_max); simpl in Hk; [| lia].
  destruct (Qeq_bool (nth a x 0%Q) (nth i x 0%Q)) eqn:Heq; [| lia].
  destruct (Nat.eq_dec k a) as [-> | Hne].
  - apply Qeq_bool_true. exact Heq.
  - apply (IH (S a)). lia.
Qed.

Lemma look_ahead_stop (fuel a : nat) :
  i_max - a <= fuel ->
  look_ahead fuel x i i_max a < i_max ->
  ~ (nth (look_ahead fuel x i i_max a) x 0 == nth i x 0)%Q.
Proof.
  revert a. induction fuel as [| fuel IH]; intros a Hfuel; simpl.
  - lia.
  - destruct (Nat.ltb_spec a i_max); simpl; [| lia].
    destruct (Qeq_bool (nth a x 0%Q) (nth i x 0%Q)) eqn:Heq.
    + apply IH. lia.
    + intros _. apply Qeq_bool_false. exact Heq.
Qed.
End PeakScan.

Lemma midpoint_bounds (l r : nat) :
  l <= r -> l <= midpoint l r <= r.
Proof.
  intros Hlr. unfold midpoint. split.
  - apply Nat.div_le_lower_bound; lia.
  - apply Nat.Div0.div_le_upper_bound. lia.
Qed.

Section Scan.
Variable x : list Q.
Local Abbreviation i_max := (length x - 1).

(** Every recorded index is the middle of a flat top that starts at or
    after the scan position. *)
Lemma local_maxima_loop_sound (fuel i p : nat) :
  1 <= i ->
  p ∈ local_maxima_loop fuel x i_max i ->
  exists l r, flat_top x l r /\ i <= l /\ p = midpoint l r.
Proof.
  revert i. induction fuel as [| fuel IH]; intros i Hi Hp; simpl in Hp.
  - inversion Hp.
  - destruct (Nat.ltb_spec i i_max) as [Hlt |]; [| inversion Hp].
    destruct (Qlt_bool (nth (i - 1) x 0%Q) (nth i x 0%Q)) eqn:Hrise.
    + set (ia := look_ahead (length x) x i i_max (i + 1)) in *.
      assert (Hge : i + 1 <= ia) by apply look_ahead_ge.
      assert (Hle : ia <= i_max) by (apply look_ahead_le; lia).
      destruct (Qlt_bool (nth ia x 0%Q) (nth i x 0%Q)) eqn:Hfall.
      * apply elem_of_cons in Hp as [-> | Hp].
        -- exists i, (ia - 1). split; [| split; [lia | reflexivity]].
           unfold flat_top.
           replace (ia - 1 + 1) with ia by lia.
           repeat split; try lia.
           ++ apply Qlt_bool_true. exact Hrise.
           ++ intros k Hk. destruct (Nat.eq_dec k i) as [-> | Hne]; [reflexivity |].
              apply (look_ahead_plateau x i (length x - 1) (length x) (i + 1)).
              fold ia. lia.
           ++ apply Qlt_bool_true. exact Hfall.
        -- destruct (IH (ia + 1) ltac:(lia) Hp) as (l & r & Htop & Hl & Heq).
           exists l, r. split; [exact Htop | split; [lia | exact Heq]].
      * destruct (IH (i + 1) ltac:(lia) Hp) as (l & r & Htop & Hl & Heq).
        exists l, r. split; [exact Htop | split; [lia | exact Heq]].
    + destruct (IH (i + 1) ltac:(lia) Hp) as (l & r & Htop & Hl & Heq).
      exists l, r. split; [exact Htop | split; [lia | exact Heq]].
Qed.

Lemma local_maxima_loop_lower (fuel i p : nat) :
  1 <= i -> p ∈ local_maxima_loop fuel x i_max i -> i <= p.
Proof.
  intros Hi Hp.
  destruct (local_maxima_loop_sound fuel i p Hi Hp) as (l & r & Htop & Hl & ->).
  destruct Htop as (_ & Hlr & _).
  pose proof (midpoint_bounds l r Hlr). lia.
Qed.

(** The recorded indices increase strictly. *)
Lemma local_maxima_loop_sorted (fuel i : nat) :
  1 <= i -> StronglySorted lt (local_maxima_loop fuel x i_max i).
Proof.
  revert i. induction fuel as [| fuel IH]; intros i Hi; simpl.
  - constructor.
  - destruct (Nat.ltb_spec i i_max) as [Hlt |]; [| constructor].
    destruct (Qlt_bool (nth (i - 1) x 0%Q) (nth i x 0%Q)); [| apply IH; lia].
    set (ia := look_ahead (length x) x i i_max (i + 1)).
    assert (Hge : i + 1 <= ia) by apply look_ahead_ge.
    destruct (Qlt_bool (nth ia x 0%Q) (nth i x 0%Q)); [| apply IH; lia].
    constructor; [apply IH; lia |].
    apply List.Forall_forall. intros q Hq.
    apply list_elem_of_In in Hq.
    apply local_maxima_loop_lower in Hq; [| lia].
    pose proof (midpoint_bounds i (ia - 1) ltac:(lia)). lia.
Qed.

(** A strict local maximum at or after the scan position is recorded. *)
Lemma local_maxima_loop_complete (j : nat) :
  strict_local_max x j ->
  forall fuel i, 1 <= i <= j -> i_max - i <= fuel ->
  j ∈ local_maxima_loop fuel x i_max i.
Proof.
  intros (Hj1 & Hj2 & Hup & Hdown).
  induction fuel as [| fuel IH]; intros i Hi Hfuel.
  - lia.
  - simpl.
    destruct (Nat.ltb_spec i i_max) as [Hlt | Hge]; [| lia].
    destruct (Qlt_bool (nth (i - 1) x 0%Q) (nth i x 0%Q)) eqn:Hrise.
    + set (ia := look_ahead (length x) x i i_max (i + 1)).
      assert (Hge : i + 1 <= ia) by apply look_ahead_ge.
      assert (Hle : ia <= i_max) by (apply look_ahead_le; lia).
      assert (Hflat : forall k, i <= k < ia -> (nth k x 0 == nth i x 0)%Q).
      { intros k Hk. destruct (Nat.eq_dec k i) as [-> | Hne]; [reflexivity |].
        apply (look_ahead_plateau x i i_max (length x) (i + 1)).
        fold ia. lia. }
      destruct (Nat.eq_dec i j) as [-> | Hne].
      * assert (Hia : ia = j + 1).
        { destruct (Nat.eq_dec ia (j + 1)) as [| Hne]; [assumption |].
          exfalso. pose proof (Hflat (j + 1) ltac:(lia)). lra. }
        rewrite Hia. apply Qlt_bool_true in Hdown. rewrite Hdown.
        replace (midpoint j (j + 1 - 1)) with j.
        -- apply elem_of_cons. left. reflexivity.
        -- unfold midpoint. replace (j + (j + 1 - 1)) with (j * 2) by lia.
           symmetry. apply Nat.div_mul. lia.
      * assert (Hstep : forall k, i < k < ia ->
                  (nth (k - 1) x 0 == nth k x 0)%Q).
        { intros k Hk.
          rewrite (Hflat k) by lia. rewrite (Hflat (k - 1)) by lia. reflexivity. }
        destruct (Qlt_bool (nth ia x 0%Q) (nth i x 0%Q)) eqn:Hfall.
        -- apply elem_of_cons. right. apply IH; [| lia].
           split; [lia |].
           destruct (Nat.le_gt_cases (ia + 1) j) as [| Hgt]; [assumption |].
           exfalso.
           destruct (Nat.eq_dec j ia) as [-> | Hne'].
           ++ apply Qlt_bool_true in Hfall.
              pose proof (Hflat (ia - 1) ltac:(lia)). lra.
           ++ pose proof (Hstep j ltac:(lia)). lra.
        -- apply IH; lia.
    + destruct (Nat.eq_dec i j) as [-> | Hne].
      * apply Qlt_bool_false in Hrise. lra.
      * apply IH; lia.
Qed.
End Scan.

(** The fuel given to the two loops is never used up: any larger amount
    gives the same result. *)
Lemma look_ahead_fuel (x : list Q) (i i_max : nat) (f1 f2 a : nat) :
  i_max - a <= f1 -> i_max - a <= f2 ->
  look_ahead f1 x i i_max a = look_ahead f2 x i i_max a.
Proof.
  revert f2 a. induction f1 as [| f1 IH]; intros f2 a H1 H2.
  - destruct f2 as [| f2]; [reflexivity |]. simpl.
    destruct (Nat.ltb_spec a i_max); [lia | reflexivity].
  - destruct f2 as [| f2]; simpl.
    + destruct (Nat.ltb_spec a i_max); [lia | reflexivity].
    + destruct (Nat.ltb_spec a i_max); simpl; [| reflexivity].
      destruct (Qeq_bool _ _); [apply IH; lia | reflexivity].
Qed.

Lemma local_maxima_loop_fuel (x : list Q) (i_max : nat) (f1 f2 i : nat) :
  i_max - i <= f1 -> i_max - i <= f2 ->
  local_maxima_loop f1 x i_max i = local_maxima_loop f2 x i_max i.
Proof.
  revert f2 i. induction f1 as [| f1 IH]; intros f2 i H1 H2.
  - destruct f2 as [| f2]; [reflexivity |]. simpl.
    destruct (Nat.ltb_spec i i_max); [lia | reflexivity].
  - destruct f2 as [| f2]; simpl.
    + destruct (Nat.ltb_spec i i_max); [lia | reflexivity].
    + destruct (Nat.ltb_spec i i_max); [| reflexivity].
      pose proof (look_ahead_ge x i i_max (length x) (i + 1)).
      destruct (Qlt_bool (nth (i - 1) x 0%Q) (nth i x 0%Q)); [| apply IH; lia].
      destruct (Qlt_bool _ _); [f_equal |]; apply IH; lia.
Qed.

Lemma find_peaks_fuel (x : list Q) (fuel : nat) :
  length x <= fuel ->
  find_peaks x = local_maxima_loop fuel x (length x - 1) 1.
Proof.
  intros Hfuel. unfold find_peaks, local_maxima_1d.
  apply local_maxima_loop_fuel; lia.
Qed.

Section FindPeaks.
Variable x : list Q.

Lemma find_peaks_sound (p : nat) :
  p ∈ find_peaks x -> exists l r, flat_top x l r /\ p = midpoint l r.
Proof.
  intros Hp.
  destruct (local_maxima_loop_sound x (length x) 1 p ltac:(lia) Hp)
    as (l & r & Htop & _ & Heq).
  exists l, r. split; assumption.
Qed.

Lemma find_peaks_complete (j : nat) :
  strict_local_max x j -> j ∈ find_peaks x.
Proof.
  intros Hj. apply local_maxima_loop_complete; [exact Hj | | lia].
  destruct Hj as (Hj & _). lia.
Qed.

Lemma find_peaks_sorted : StronglySorted lt (find_peaks x).
Proof. apply local_maxima_loop_sorted. lia. Qed.

(** A detected peak lies strictly inside the sequence and is at least as
    high as both neighbours. *)
Lemma find_peaks_interior (p : nat) :
  p ∈ find_peaks x -> 1 <= p /\ p + 1 < length x.
Proof.
  intros Hp. destruct (find_peaks_sound p Hp) as (l & r & Htop & ->).
  destruct Htop as (Hl & Hlr & Hr & _).
  pose proof (midpoint_bounds l r Hlr). lia.
Qed.

(** Without two equal samples in a row, the detected peaks are the strict
    local maxima. *)
Lemma find_peaks_strict (p : nat) :
  (forall k, k + 1 < length x -> ~ (nth k x 0 == nth (k + 1) x 0)%Q) ->
  p ∈ find_peaks x <-> strict_local_max x p.
Proof.
  intros Hdistinct. split; [| apply find_peaks_complete].
  intros Hp. destruct (find_peaks_sound p Hp) as (l & r & Htop & ->).
  destruct Htop as (Hl & Hlr & Hr & Hup & Hflat & Hdown).
  assert (r = l) as ->.
  { destruct (Nat.eq_dec r l) as [| Hne]; [assumption |]. exfalso.
    apply (Hdistinct l); [lia |].
    rewrite (Hflat (l + 1)) by lia. reflexivity. }
  replace (midpoint l l) with l
    by (pose proof (midpoint_bounds l l ltac:(lia)); lia).
  repeat split; assumption.
Qed.
End FindPeaks.

Lemma nth_map_Qopp (x : list Q) (k : nat) :
  nth k (map Qopp x) 0%Q = Qopp (nth k x 0%Q).
Proof. change 0%Q with (Qopp 0) at 1. apply map_nth. Qed.

(** Troughs are the peaks of the negated sequence. *)
Lemma strict_local_min_opp (x : list Q) (k : nat) :
  strict_local_min x k <-> strict_local_max (map Qopp x) k.
Proof.
  unfold strict_local_min, strict_local_max.
  rewrite length_map, !nth_map_Qopp.
  split; intros (H1 & H2 & H3 & H4); repeat split; try assumption; lra.
Qed.

Lemma strictly_increasing_opp (x : list Q) :
  strictly_increasing x <-> strictly_decreasing (map Qopp x).
Proof.
  unfold strictly_increasing, strictly_decreasing. rewrite length_map.
  split; intros H i Hi; specialize (H i Hi); rewrite ?nth_map_Qopp in *; lra.
Qed.

Lemma strictly_decreasing_opp (x : list Q) :
  strictly_decreasing x <-> strictly_increasing (map Qopp x).
Proof.
  unfold strictly_increasing, strictly_decreasing. rewrite length_map.
  split; intros H i Hi; specialize (H i Hi); rewrite ?nth_map_Qopp in *; lra.
Qed.

Lemma list_empty_or_elem {A} (l : list A) : l = [] \/ exists a, a ∈ l.
Proof.
  destruct l as [| a l]; [left; reflexivity | right].
  exists a. apply elem_of_cons. left. reflexivity.
Qed.

Lemma find_peaks_increasing (x : list Q) :
  strictly_increasing x -> find_peaks x = [].
Proof.
  intros Hinc. destruct (list_empty_or_elem (find_peaks x)) as [| [p Hp]]; [assumption |].
  exfalso. destruct (find_peaks_sound x p Hp) as (l & r & Htop & _).
  destruct Htop as (Hl & Hlr & Hr & Hup & Hflat & Hdown).
  pose proof (Hinc r Hr). pose proof (Hflat r ltac:(lia)). lra.
Qed.

Lemma find_peaks_decreasing (x : list Q) :
  strictly_decreasing x -> find_peaks x = [].
Proof.
  intros Hdec. destruct (list_empty_or_elem (find_peaks x)) as [| [p Hp]]; [assumption |].
  exfalso. destruct (find_peaks_sound x p Hp) as (l & r & Htop & _).
  destruct Htop as (Hl & Hlr & Hr & Hup & Hflat & Hdown).
  pose proof (Hdec (l - 1) ltac:(lia)) as Hstep.
  replace (l - 1 + 1) with l in Hstep by lia. lra.
Qed.

(** The last element of a strictly increasing list is its greatest. *)
Lemma last_greatest (l : list nat) (q : nat) :
  StronglySorted lt l -> q ∈ l -> q <= List.last l 0.
Proof.
  intros Hsorted. revert q.
  induction Hsorted as [| a l Hsorted IH Hall]; intros q Hq.
  - inversion Hq.
  - apply elem_of_cons in Hq as [-> | Hq].
    + destruct l as [| b l]; [simpl; lia |].
      change (List.last (a :: b :: l) 0) with (List.last (b :: l) 0).
      assert (Hb : b <= List.last (b :: l) 0)
        by (apply IH, elem_of_cons; left; reflexivity).
      apply List.Forall_inv in Hall. lia.
    + destruct l as [| b l]; [inversion Hq |].
      change (List.last (a :: b :: l) 0) with (List.last (b :: l) 0).
      apply IH. exact Hq.
Qed.

Lemma last_elem_of (l : list nat) : l <> [] -> List.last l 0 ∈ l.
Proof.
  intros Hne. destruct (exists_last Hne) as (l' & a & ->).
  rewrite last_last. apply elem_of_app. right.
  apply list_elem_of_singleton. reflexivity.
Qed.

(** ** [compute_bva] *)

Lemma compute_bva_none (x : list Q) :
  compute_bva x = None <->
  length x < 10 \/ find_peaks x = [] \/ find_peaks (map Qopp x) = [].
Proof.
  unfold compute_bva.
  destruct (Nat.ltb_spec (length x) 10) as [Hshort | Hlong].
  - split; [left; assumption | reflexivity].
  - destruct (find_peaks x) as [| p ps]; simpl.
    + split; [right; left; reflexivity | reflexivity].
    + destruct (find_peaks (map Qopp x)) as [| t ts]; simpl.
      * split; [right; right; reflexivity | reflexivity].
      * split; [discriminate |].
        intros [H | [H | H]]; [lia | discriminate | discriminate].
Qed.

Lemma compute_bva_some (x : list Q) :
  10 <= length x -> find_peaks x <> [] -> find_peaks (map Qopp x) <> [] ->
  compute_bva x =
    Some (Qabs (nth (List.last (find_peaks x) 0) x 0%Q
                - nth (List.last (find_peaks (map Qopp x)) 0) x 0%Q)).
Proof.
  intros Hlen Hp Ht. unfold compute_bva.
  destruct (Nat.ltb_spec (length x) 10); [lia |].
  destruct (find_peaks x) as [| p ps]; [congruence |].
  destruct (find_peaks (map Qopp x)) as [| t ts]; [congruence |].
  reflexivity.
Qed.

(** ** The alert history *)

Section Debouncer.
Variable sock : socket.

Lemma deque_append_short {A} (n : nat) (d : list A) (v : A) :
  length d < n -> deque_append n d v = d ++ [v].
Proof.
  intros Hlen. unfold deque_append.
  rewrite length_app. simpl.
  destruct (Nat.ltb_spec n (length d + 1)); [lia | reflexivity].
Qed.

Lemma deque_append_full {A} (n : nat) (d : list A) (v : A) :
  length d = n -> 0 < n -> deque_append n d v = tl d ++ [v].
Proof.
  intros Hlen Hpos. unfold deque_append.
  rewrite length_app. simpl.
  destruct (Nat.ltb_spec n (length d + 1)); [| lia].
  destruct d; simpl in *; [lia | reflexivity].
Qed.

Lemma deque_append_length {A} (n : nat) (d : list A) (v : A) :
  length d <= n -> 0 < n -> length (deque_append n d v) <= n.
Proof.
  intros Hlen Hpos.
  destruct (Nat.eq_dec (length d) n) as [Heq | Hne].
  - rewrite deque_append_full by assumption.
    rewrite length_app. destruct d; simpl in *; lia.
  - rewrite deque_append_short by lia.
    rewrite length_app. simpl. lia.
Qed.

(** The set of a history has one element exactly when the history is not
    empty and all its entries are the same. *)
Lemma unique_preds_one (h : list string) :
  size (list_to_set h : gset string) = 1 <->
  exists x, x ∈ h /\ forall y, y ∈ h -> y = x.
Proof.
  split.
  - intros Hsize.
    destruct (size_1_elem_of _ Hsize) as [x Hx].
    exists x. split.
    + apply (elem_of_list_to_set (C := gset string)). rewrite Hx. set_solver.
    + intros y Hy.
      apply (elem_of_list_to_set (C := gset string)) in Hy.
      rewrite Hx in Hy. set_solver.
  - intros [x [Hin Hall]].
    assert (Heq : (list_to_set h : gset string) = {[ x ]}).
    { apply set_eq. intros y. rewrite elem_of_list_to_set, elem_of_singleton.
      split; [apply Hall | intros ->; exact Hin]. }
    rewrite Heq. apply size_singleton.
Qed.

Lemma send_unity_alert_trace (message : string) :
  send_unity_alert sock message =
    ( [ SendTo (encode message) UNITY_IP UNITY_PORT;
        Print (match sock (encode message) with
               | Ok _ => SentUnityAlert message
               | Raise e => FailedUnityAlert e
               end) ],
      Ok tt ).
Proof.
  unfold send_unity_alert, try_except, bind, call, emit.
  destruct (sock (encode message)); reflexivity.
Qed.

(** What one update does, by the alert condition. *)
Lemma update_history_fires (h : list string) (l : string) :
  alert_fires h l = true ->
  update_history sock h l =
    ( [ SendTo (encode (String.append "ALERT|" (upper l))) UNITY_IP UNITY_PORT;
        Print (match sock (encode (String.append "ALERT|" (upper l))) with
               | Ok _ => SentUnityAlert (String.append "ALERT|" (upper l))
               | Raise e => FailedUnityAlert e
               end) ],
      Ok [] ).
Proof.
  unfold alert_fires, update_history. intros Hfire.
  apply andb_true_iff in Hfire as [H10 H1].
  rewrite H10, H1. rewrite send_unity_alert_trace. reflexivity.
Qed.

Lemma update_history_quiet (h : list string) (l : string) :
  alert_fires h l = false ->
  update_history sock h l = ([], Ok (deque_append 10 h l)).
Proof.
  unfold alert_fires, update_history. intros Hfire.
  destruct (10 <=? length (deque_append 10 h l)); [| reflexivity].
  simpl in Hfire. rewrite Hfire. reflexivity.
Qed.

Lemma alert_fires_short (h : list string) (l : string) :
  length h < 9 -> alert_fires h l = false.
Proof.
  intros Hlen. unfold alert_fires.
  rewrite deque_append_short by lia.
  rewrite length_app.
  replace (10 <=? length h + length [l]) with false; [reflexivity |].
  symmetry. apply Nat.leb_gt. simpl. lia.
Qed.

Lemma alert_fires_replicate (l : string) :
  alert_fires (replicate 9 l) l = true.
Proof.
  unfold alert_fires.
  rewrite deque_append_short by (rewrite length_replicate; lia).
  apply andb_true_iff. split.
  { apply Nat.leb_le. rewrite length_app, length_replicate. simpl. lia. }
  apply Nat.eqb_eq, unique_preds_one.
  exists l. split.
  - apply elem_of_app. right. apply list_elem_of_singleton. reflexivity.
  - intros y Hy. apply elem_of_app in Hy as [Hy | Hy].
    + apply elem_of_replicate in Hy. tauto.
    + apply list_elem_of_singleton in Hy. exact Hy.
Qed.

(** Fewer than ten labels in all never fire: the history only grows. *)
Lemma feed_short (labels h : list string) :
  length h + length labels < 10 ->
  feed sock labels h = ([], Ok (h ++ labels)).
Proof.
  revert h. induction labels as [| l labels IH]; intros h Hlen; simpl in *.
  - rewrite app_nil_r. reflexivity.
  - rewrite update_history_quiet by (apply alert_fires_short; lia).
    rewrite deque_append_short by lia.
    unfold bind. rewrite IH by (rewrite length_app; simpl; lia).
    rewrite <- app_assoc. reflexivity.
Qed.

Lemma feed_app (l1 l2 h : list string) :
  feed sock (l1 ++ l2) h = do h' <- feed sock l1 h; feed sock l2 h'.
Proof.
  revert h. induction l1 as [| l l1 IH]; intros h; simpl.
  - unfold ret, bind. destruct (feed sock l2 h). reflexivity.
  - destruct (update_history sock h l) as [tr [h1 | e]]; simpl; [| reflexivity].
    rewrite IH. unfold bind.
    destruct (feed sock l1 h1) as [tr1 [h2 | e]]; [| reflexivity].
    destruct (feed sock l2 h2) as [tr2 r]. rewrite app_assoc. reflexivity.
Qed.

(** An update never raises and keeps the history within ten entries. *)
Lemma update_history_bounded (h : list string) (l : string) :
  length h <= 10 ->
  exists tr h', update_history sock h l = (tr, Ok h') /\ length h' <= 10.
Proof.
  intros Hlen. destruct (alert_fires h l) eqn:Hfire.
  - rewrite update_history_fires by assumption.
    eexists _, _. split; [reflexivity | simpl; lia].
  - rewrite update_history_quiet by assumption.
    eexists _, _. split; [reflexivity |].
    apply deque_append_length; lia.
Qed.

Lemma feed_bounded (labels h : list string) :
  length h <= 10 ->
  exists tr h', feed sock labels h = (tr, Ok h') /\ length h' <= 10.
Proof.
  revert h. induction labels as [| l labels IH]; intros h Hlen; simpl.
  - eexists _, _. split; [reflexivity | assumption].
  - destruct (update_history_bounded h l Hlen) as (tr & h1 & -> & Hlen1).
    destruct (IH h1 Hlen1) as (tr' & h' & Heq & Hlen').
    unfold bind. rewrite Heq. eexists _, _. split; [reflexivity | assumption].
Qed.
End Debouncer.

(** ** The channel buffers *)

Lemma samples_lookup (buf : gmap string (list Q)) (k : string) :
  samples buf k = default [] (buf !! k).
Proof.
  unfold samples, getitem. destruct (buf !! k); reflexivity.
Qed.

Lemma samples_insert (buf : gmap string (list Q)) (k k' : string) (d : list Q) :
  samples (<[k := d]> buf) k' = if decide (k = k') then d else samples buf k'.
Proof.
  rewrite !samples_lookup, lookup_insert.
  case_decide; reflexivity.
Qed.

Lemma getitem_fst (buf : gmap string (list Q)) (k : string) :
  fst (getitem buf k) = samples buf k.
Proof. reflexivity. Qed.

(** Reading a channel does not change what any channel holds. *)
Lemma getitem_snd (buf : gmap string (list Q)) (k k' : string) :
  samples (snd (getitem buf k)) k' = samples buf k'.
Proof.
  unfold getitem. destruct (buf !! k) eqn:Hk; simpl; [reflexivity |].
  rewrite samples_insert. case_decide as Heq; [| reflexivity].
  subst k'. rewrite samples_lookup, Hk. reflexivity.
Qed.

Lemma getitem_snd_clear (buf : gmap string (list Q)) (k : string) :
  samples buf k = [] -> snd (getitem buf k) = <[k := []]> buf.
Proof.
  rewrite samples_lookup. unfold getitem.
  destruct (buf !! k) as [d |] eqn:Hk; simpl; [| reflexivity].
  intros ->. symmetry. apply insert_id. exact Hk.
Qed.

Lemma truediv_ok (a : Q) (n : nat) :
  n <> 0 -> truediv a n = Ok (a / inject_Z (Z.of_nat n))%Q.
Proof.
  intros Hn. unfold truediv.
  destruct (Nat.eqb_spec n 0); [contradiction | reflexivity].
Qed.

(** ** The aggregation loop *)

Lemma aggregate_channels_spec (keys : list string) :
  NoDup keys ->
  forall (row : gmap string (option Q)) (buf : gmap string (list Q)),
  exists row' buf',
    aggregate_channels keys row buf = Ok (row', buf') /\
    (forall k, row' !! k =
       if decide (k ∈ keys /\ k <> "BVA")
       then Some (channel_mean (samples buf k)) else row !! k) /\
    (forall k, samples buf' k =
       if decide (k ∈ keys /\ k <> "BVA") then [] else samples buf k).
Proof.
  induction 1 as [| key keys Hnotin Hnodup IH]; intros row buf.
  - exists row, buf. split; [reflexivity |].
    split; intros k; case_decide as Hk; try reflexivity;
      destruct Hk as [Hk _]; inversion Hk.
  - simpl. destruct (String.eqb_spec key "BVA") as [-> | Hne].
    + destruct (IH row buf) as (row' & buf' & -> & Hrow & Hbuf).
      exists row', buf'. split; [reflexivity |].
      split; intros k; [rewrite Hrow | rewrite Hbuf];
        repeat case_decide; try reflexivity; exfalso; key_solver.
    + destruct (getitem buf key) as [d buf0] eqn:Hget.
      assert (Hd : d = samples buf key) by (unfold samples; rewrite Hget; reflexivity).
      assert (Hbuf0 : forall k, samples buf0 k = samples buf k).
      { intros k. replace buf0 with (snd (getitem buf key)) by (rewrite Hget; reflexivity).
        apply getitem_snd. }
      destruct d as [| a d'].
      * destruct (IH (<[key := None]> row) buf0) as (row' & buf' & -> & Hrow & Hbuf).
        exists row', buf'. split; [reflexivity |].
        split; intros k; [rewrite Hrow | rewrite Hbuf].
        -- rewrite lookup_insert, Hbuf0.
           repeat case_decide; subst; try reflexivity; try (exfalso; key_solver).
           rewrite <- Hd. reflexivity.
        -- rewrite Hbuf0.
           repeat case_decide; subst; try reflexivity; try (exfalso; key_solver).
           destruct (decide (k = key)) as [-> | Hk]; [congruence |].
           exfalso; key_solver.
      * rewrite truediv_ok by discriminate. unfold bind_r.
        destruct (IH (<[key := Some (py_sum (a :: d')
                                     / inject_Z (Z.of_nat (length (a :: d'))))%Q]> row)
                     (<[key := []]> buf0))
          as (row' & buf' & -> & Hrow & Hbuf).
        exists row', buf'. split; [reflexivity |].
        split; intros k; [rewrite Hrow | rewrite Hbuf].
        -- rewrite lookup_insert, samples_insert, Hbuf0.
           repeat case_decide; subst; try reflexivity; try (exfalso; key_solver).
           rewrite <- Hd. reflexivity.
        -- rewrite samples_insert, Hbuf0.
           repeat case_decide; subst; try reflexivity; try (exfalso; key_solver).
Qed.

(** ** The locked section of a cycle *)

Lemma fieldnames_NoDup : NoDup (tl fieldnames).
Proof. apply (bool_decide_unpack _). vm_compute. reflexivity. Qed.

Lemma tracked_channels_elem (k : string) :
  k ∈ tracked_channels <-> k ∈ tl fieldnames /\ k <> "BVA".
Proof.
  unfold tracked_channels. rewrite list_elem_of_filter. tauto.
Qed.

Lemma EDA_tracked : "EDA" ∈ tracked_channels.
Proof. apply (bool_decide_unpack _). vm_compute. reflexivity. Qed.

Lemma T1_tracked : "T1" ∈ tracked_channels.
Proof. apply (bool_decide_unpack _). vm_compute. reflexivity. Qed.

Lemma PPG_IR_tracked : "PPG:IR" ∈ tracked_channels.
Proof. apply (bool_decide_unpack _). vm_compute. reflexivity. Qed.

(** A min-max fit over a single value sends that value to zero. *)
Lemma fit_transform_single (v : Q) :
  exists s, fit_transform (0, 1)%Q [v] = Ok [s] /\ (s == 0)%Q.
Proof.
  unfold fit_transform. cbn [fold_left map fst snd].
  eexists. split; [reflexivity |]. ring.
Qed.

Lemma locked_section_spec (timestamp : Q) (buf : gmap string (list Q)) :
  exists row bva_scaled buf',
    locked_section timestamp buf =
      Ok (row,
          {| pd_BVA := bva_scaled;
             pd_EDA := channel_mean (samples buf "EDA");
             pd_Temp := channel_mean (samples buf "T1") |},
          buf') /\
    row !! "timestamp" = Some (Some timestamp) /\
    row !! "BVA" = Some (compute_bva (samples buf "PPG:IR")) /\
    (forall k, k ∈ tracked_channels ->
               row !! k = Some (channel_mean (samples buf k))) /\
    (forall k, k ∉ fieldnames -> row !! k = None) /\
    match compute_bva (samples buf "PPG:IR") with
    | Some _ => exists s, bva_scaled = Some s /\ (s == 0)%Q
    | None => bva_scaled = None
    end /\
    (forall k, samples buf' k =
               if decide (k ∈ tracked_channels) then [] else samples buf k).
Proof.
  unfold locked_section.
  destruct (getitem buf "PPG:IR") as [ppg buf0] eqn:Hget.
  assert (Hppg : ppg = samples buf "PPG:IR")
    by (unfold samples; rewrite Hget; reflexivity).
  assert (Hbuf0 : forall k, samples buf0 k = samples buf k).
  { intros k. replace buf0 with (snd (getitem buf "PPG:IR")) by (rewrite Hget; reflexivity).
    apply getitem_snd. }
  rewrite <- Hppg.
  assert (Hscaled : exists bva_scaled,
    match compute_bva ppg with
    | Some v =>
        let? scaled := fit_transform (0, 1)%Q [v] in
        let? s := index scaled 0 in Ok (Some s)
    | None => Ok None
    end = Ok bva_scaled /\
    match compute_bva ppg with
    | Some _ => exists s, bva_scaled = Some s /\ (s == 0)%Q
    | None => bva_scaled = None
    end).
  { destruct (compute_bva ppg) as [v |]; [| exists None; split; reflexivity].
    destruct (fit_transform_single v) as (s & -> & Hs).
    exists (Some s). split; [reflexivity |]. exists s. split; [reflexivity | exact Hs]. }
  destruct Hscaled as (bva_scaled & -> & Hbva). unfold bind_r at 1.
  destruct (aggregate_channels_spec (tl fieldnames) fieldnames_NoDup
              (<["BVA" := compute_bva ppg]> {["timestamp" := Some timestamp]}) buf0)
    as (row & buf1 & -> & Hrow & Hbuf1).
  unfold bind_r at 1.
  assert (Htracked : forall k, k ∈ tracked_channels ->
                               row !! k = Some (channel_mean (samples buf k))).
  { intros k Hk. rewrite Hrow, Hbuf0.
    apply tracked_channels_elem in Hk. case_decide; [reflexivity | tauto]. }
  unfold row_get. rewrite (Htracked "EDA" EDA_tracked), (Htracked "T1" T1_tracked).
  unfold bind_r.
  destruct (getitem buf1 "PPG:IR") as [ppg1 buf2] eqn:Hget1.
  assert (Hbuf2 : forall k, samples buf2 k = samples buf1 k).
  { intros k. replace buf2 with (snd (getitem buf1 "PPG:IR")) by (rewrite Hget1; reflexivity).
    apply getitem_snd. }
  eexists _, _, _. split; [reflexivity |].
  split; [| split; [| split; [exact Htracked | split; [| split; [exact Hbva |]]]]].
  - rewrite Hrow. case_decide as Hk.
    + exfalso. destruct Hk as [Hk _]. revert Hk.
      apply (bool_decide_unpack _). vm_compute. reflexivity.
    + rewrite lookup_insert_ne by discriminate. apply lookup_singleton_eq.
  - rewrite Hrow. case_decide as Hk; [tauto |]. apply lookup_insert_eq.
  - intros k Hk. rewrite Hrow. case_decide as Hk'.
    + exfalso. apply Hk. destruct Hk' as [Hk' _].
      unfold fieldnames. apply elem_of_cons. right. exact Hk'.
    + rewrite lookup_insert_ne.
      * apply lookup_singleton_ne. intros <-. apply Hk.
        apply (bool_decide_unpack _). vm_compute. reflexivity.
      * intros <-. apply Hk.
        apply (bool_decide_unpack _). vm_compute. reflexivity.
  - intros k. rewrite samples_insert, Hbuf2, Hbuf1, Hbuf0.
    pose proof (tracked_channels_elem k) as Hiff.
    pose proof PPG_IR_tracked.
    repeat case_decide; subst; try reflexivity; tauto.
Qed.

(** ** The classifier adapter *)

Lemma none_in_true (ml0 : ml_components) :
  none_in ml0 = true <->
  clf ml0 = None \/ std_scaler ml0 = None \/
  bva_scaler ml0 = None \/ label_encoder ml0 = None.
Proof.
  unfold none_in.
  destruct (clf ml0), (std_scaler ml0), (bva_scaler ml0), (label_encoder ml0);
    split; try reflexivity; try discriminate; try tauto;
    intros [H | [H | [H | H]]]; discriminate.
Qed.

Lemma predict_cognitive_load_unloaded (pandas0 : result unit) (ml0 : ml_components)
    (eda temp bva : Q) :
  none_in ml0 = true ->
  predict_cognitive_load pandas0 ml0 eda temp bva = ([], Ok "MODEL_NOT_LOADED").
Proof.
  unfold none_in, predict_cognitive_load.
  destruct (clf ml0), (std_scaler ml0), (bva_scaler ml0), (label_encoder ml0);
    try reflexivity; discriminate.
Qed.

Lemma predict_cognitive_load_loaded (pandas0 : result unit) (ml0 : ml_components)
    (c : classifier) (s : standard_scaler) (b : bva_scaler_t) (l : label_encoder_t)
    (eda temp bva : Q) :
  clf ml0 = Some c -> std_scaler ml0 = Some s ->
  bva_scaler ml0 = Some b -> label_encoder ml0 = Some l ->
  predict_cognitive_load pandas0 ml0 eda temp bva =
    match scoring pandas0 c s b l eda temp bva with
    | (tr, Ok label) => (tr, Ok label)
    | (tr, Raise e) => (tr ++ [Print (PredictionFailed e)], Ok "PREDICTION_ERROR")
    end.
Proof.
  intros Hc Hs Hb Hl. unfold predict_cognitive_load, try_except.
  rewrite Hc, Hs, Hb, Hl.
  destruct (scoring pandas0 c s b l eda temp bva) as [tr [label | e]]; reflexivity.
Qed.

(** The adapter always returns a label. *)
Lemma predict_cognitive_load_ok (pandas0 : result unit) (ml0 : ml_components)
    (eda temp bva : Q) :
  exists tr label,
    predict_cognitive_load pandas0 ml0 eda temp bva = (tr, Ok label).
Proof.
  destruct (none_in ml0) eqn:Hnone.
  - rewrite predict_cognitive_load_unloaded by assumption. eauto.
  - unfold none_in in Hnone.
    destruct (clf ml0) as [c |] eqn:Hc; [| discriminate].
    destruct (std_scaler ml0) as [s |] eqn:Hs; [| discriminate].
    destruct (bva_scaler ml0) as [b |] eqn:Hb; [| discriminate].
    destruct (label_encoder ml0) as [l |] eqn:Hl; [| discriminate].
    rewrite (predict_cognitive_load_loaded pandas0 ml0 c s b l) by assumption.
    destruct (scoring pandas0 c s b l eda temp bva) as [tr [label | e]]; eauto.
Qed.

Lemma load_ml_components_failed (a : artifacts) :
  (exists e, random_forest_model_pkl a = Raise e) \/
  (exists e, standard_scaler_pkl a = Raise e) \/
  (exists e, bva_scaler_pkl a = Raise e) \/
  (exists e, label_encoder_pkl a = Raise e) ->
  none_in (load_ml_components a) = true.
Proof.
  unfold load_ml_components, bind_r.
  intros [[e H] | [[e H] | [[e H] | [e H]]]]; rewrite H;
    destruct (random_forest_model_pkl a), (standard_scaler_pkl a),
             (bva_scaler_pkl a), (label_encoder_pkl a);
    try reflexivity; discriminate.
Qed.

(** When the four artifacts load, the four globals are set. *)
Lemma load_ml_components_loaded (a : artifacts) c s b l :
  random_forest_model_pkl a = Ok c -> standard_scaler_pkl a = Ok s ->
  bva_scaler_pkl a = Ok b -> label_encoder_pkl a = Ok l ->
  load_ml_components a =
    {| clf := Some c; std_scaler := Some s;
       bva_scaler := Some b; label_encoder := Some l |}.
Proof.
  intros Hc Hs Hb Hl. unfold load_ml_components, bind_r.
  rewrite Hc, Hs, Hb, Hl. reflexivity.
Qed.

(** ** One cycle *)

Lemma update_history_ok (sock : socket) (h : list string) (l : string) :
  exists tr h', update_history sock h l = (tr, Ok h').
Proof.
  destruct (alert_fires h l) eqn:Hfire.
  - rewrite update_history_fires by assumption. eauto.
  - rewrite update_history_quiet by assumption. eauto.
Qed.

Lemma channel_mean_none (d : list Q) : channel_mean d = None <-> d = [].
Proof. destruct d; split; intros H; try reflexivity; discriminate. Qed.

Lemma full_vector_true (w : world) :
  full_vector w = true <->
  samples (data_buffer w) "EDA" <> [] /\
  samples (data_buffer w) "T1" <> [] /\
  compute_bva (samples (data_buffer w) "PPG:IR") <> None.
Proof.
  unfold full_vector.
  destruct (samples (data_buffer w) "EDA"), (samples (data_buffer w) "T1"),
           (compute_bva (samples (data_buffer w) "PPG:IR"));
    (split; [intros H; try discriminate H; repeat split; discriminate
            | intros (H1 & H2 & H3); congruence]).
Qed.

(** A cycle without a full feature vector writes the aggregated row and
    nothing else. *)
Lemma aggregate_iteration_incomplete (env : environment) (timestamp : Q) (w : world) :
  full_vector w = false ->
  exists row pd buf',
    locked_section timestamp (data_buffer w) = Ok (row, pd, buf') /\
    aggregate_iteration env timestamp w =
      ([], Ok {| data_buffer := buf'; last_predictions := last_predictions w;
                 csv_file := csv_file w ++ [row];
                 cogload_file := cogload_file w;
                 prediction_file := prediction_file w |}).
Proof.
  intros Hfull.
  destruct (locked_section_spec timestamp (data_buffer w))
    as (row & bva_scaled & buf' & Hlocked & _ & _ & _ & _ & Hbva & _).
  eexists _, _, _. split; [exact Hlocked |].
  unfold aggregate_iteration. rewrite Hlocked.
  unfold lift, bind. cbn [pd_EDA pd_Temp pd_BVA].
  unfold full_vector in Hfull.
  destruct (samples (data_buffer w) "EDA") as [| e es]; [reflexivity |].
  destruct (samples (data_buffer w) "T1") as [| t ts]; [reflexivity |].
  destruct (compute_bva (samples (data_buffer w) "PPG:IR")); [discriminate |].
  rewrite Hbva. reflexivity.
Qed.

(** A cycle with a full feature vector: the feature row, the call of the
    adapter, the prediction row and the update of the alert history. *)
Lemma aggregate_iteration_full (env : environment) (timestamp : Q) (w : world) :
  full_vector w = true ->
  exists row buf' eda temp v s tr1 label tr2 h,
    locked_section timestamp (data_buffer w) =
      Ok (row, {| pd_BVA := Some s; pd_EDA := Some eda; pd_Temp := Some temp |}, buf') /\
    channel_mean (samples (data_buffer w) "EDA") = Some eda /\
    channel_mean (samples (data_buffer w) "T1") = Some temp /\
    compute_bva (samples (data_buffer w) "PPG:IR") = Some v /\
    (s == 0)%Q /\
    predict_cognitive_load (pandas env) (ml env) eda temp s = (tr1, Ok label) /\
    update_history (unity_socket env) (last_predictions w) label = (tr2, Ok h) /\
    aggregate_iteration env timestamp w =
      (tr1 ++ Print (Predicted label) :: tr2,
       Ok {| data_buffer := buf'; last_predictions := h;
             csv_file := csv_file w ++ [row];
             cogload_file := cogload_file w ++ [(eda, temp, s)];
             prediction_file :=
               prediction_file w ++ [(timestamp, eda, temp, s, label)] |}).
Proof.
  intros Hfull. apply full_vector_true in Hfull as (Heda & Htemp & Hbva).
  destruct (locked_section_spec timestamp (data_buffer w))
    as (row & bva_scaled & buf' & Hlocked & _ & _ & _ & _ & Hscaled & _).
  destruct (channel_mean (samples (data_buffer w) "EDA")) as [eda |] eqn:Hce;
    [| apply channel_mean_none in Hce; contradiction].
  destruct (channel_mean (samples (data_buffer w) "T1")) as [temp |] eqn:Hct;
    [| apply channel_mean_none in Hct; contradiction].
  destruct (compute_bva (samples (data_buffer w) "PPG:IR")) as [v |] eqn:Hv;
    [| contradiction].
  destruct Hscaled as (s & -> & Hs).
  destruct (predict_cognitive_load_ok (pandas env) (ml env) eda temp s)
    as (tr1 & label & Hpredict).
  destruct (update_history_ok (unity_socket env) (last_predictions w) label)
    as (tr2 & h & Hupdate).
  exists row, buf', eda, temp, v, s, tr1, label, tr2, h.
  repeat (split; [first [assumption | reflexivity] |]).
  unfold aggregate_iteration. rewrite Hlocked.
  unfold lift, bind at 1. cbn [pd_EDA pd_Temp pd_BVA].
  rewrite Hpredict. unfold bind at 1.
  unfold emit, bind at 1. rewrite Hupdate. unfold bind, ret.
  rewrite app_nil_r. reflexivity.
Qed.

(** ** Channel names *)

Lemma split_cons (sep : ascii) (s : string) :
  exists w ws, split sep s = w :: ws.
Proof.
  destruct s as [| c s]; simpl; [eauto |].
  destruct (Ascii.eqb c sep); [eauto |].
  destruct (split sep s); eauto.
Qed.

Lemma split_append (sep : ascii) (p s : string) :
  split sep (String.append p (String sep s)) = split sep p ++ split sep s.
Proof.
  induction p as [| c p IH]; simpl.
  - rewrite Ascii.eqb_refl. reflexivity.
  - rewrite IH. destruct (Ascii.eqb c sep); [reflexivity |].
    destruct (split_cons sep p) as (w & ws & ->). reflexivity.
Qed.

Lemma last_app_cons {A} (l1 l2 : list A) (a d : A) :
  List.last (l1 ++ a :: l2) d = List.last (a :: l2) d.
Proof.
  induction l1 as [| b l1 IH]; [reflexivity |].
  rewrite <- IH. simpl. destruct (l1 ++ a :: l2) eqn:Heq; [| reflexivity].
  destruct l1; discriminate.
Qed.

(** The channel of an address is what follows its last slash. *)
Lemma signal_of_address (prefix name : string) :
  split "/" name = [name] ->
  List.last (split "/" (String.append prefix (String "/" name))) "" = name.
Proof.
  intros Hname. rewrite split_append, Hname. apply last_app_cons.
Qed.

Lemma generic_handler_TEMP2 (prefix : string) (v : Q) (rest : list Q)
    (buf : gmap string (list Q)) :
  generic_handler (String.append prefix "/TEMP2") (v :: rest) buf =
    Ok (<["T1" := deque_append 500 (samples buf "T1") v]> (snd (getitem buf "T1"))).
Proof.
  unfold generic_handler.
  rewrite (signal_of_address prefix "TEMP2") by reflexivity.
  cbn [String.eqb Ascii.eqb Bool.eqb].
  unfold samples. destruct (getitem buf "T1"). reflexivity.
Qed.

Lemma generic_handler_TEMP (prefix : string) (v : Q) (rest : list Q)
    (buf : gmap string (list Q)) :
  generic_handler (String.append prefix "/TEMP") (v :: rest) buf =
    Ok (<["TEMP" := deque_append 500 (samples buf "TEMP") v]> (snd (getitem buf "TEMP"))).
Proof.
  unfold generic_handler.
  rewrite (signal_of_address prefix "TEMP") by reflexivity.
  cbn [String.eqb Ascii.eqb Bool.eqb].
  unfold samples. destruct (getitem buf "TEMP"). reflexivity.
Qed.

(** ** Runs of cycles *)

Lemma receive_last_predictions (address : string) (args : list Q) (w : world) :
  last_predictions (receive address args w) = last_predictions w.
Proof.
  unfold receive. destruct (generic_handler address args (data_buffer w)); reflexivity.
Qed.

Lemma datagrams_app (tr1 tr2 : list event) :
  datagrams (tr1 ++ tr2) = datagrams tr1 ++ datagrams tr2.
Proof.
  induction tr1 as [| ev tr1 IH]; [reflexivity |].
  destruct ev; simpl; rewrite IH; reflexivity.
Qed.

Section Sentinel.
Variable ml0 : ml_components.
Hypothesis unloaded : none_in ml0 = true.

(** With the models missing, a full cycle appends the sentinel label. *)
Lemma sentinel_cycle (env : environment) (timestamp : Q) (w w1 : world)
    (tr1 : list event) :
  ml env = ml0 ->
  full_vector w = true ->
  aggregate_iteration env timestamp w = (tr1, Ok w1) ->
  exists tr2,
    update_history (unity_socket env) (last_predictions w) "MODEL_NOT_LOADED"
      = (tr2, Ok (last_predictions w1)) /\
    datagrams tr1 = datagrams tr2.
Proof.
  intros Hml Hfull Hrun.
  destruct (aggregate_iteration_full env timestamp w Hfull)
    as (row & buf' & eda & temp & v & s & tr & label & tr2 & h
        & _ & _ & _ & _ & _ & Hpredict & Hupdate & Heq).
  rewrite predict_cognitive_load_unloaded in Hpredict
    by (rewrite Hml; exact unloaded).
  injection Hpredict as <- <-.
  rewrite Heq in Hrun. injection Hrun as <- <-.
  exists tr2. split; [exact Hupdate | reflexivity].
Qed.

Lemma sentinel_cycles (n : nat) (w w' : world) (tr : list event) :
  full_cycles ml0 n w tr w' ->
  forall k, last_predictions w = replicate k "MODEL_NOT_LOADED" ->
  (k + n <= 9 ->
     datagrams tr = [] /\ last_predictions w' = replicate (k + n) "MODEL_NOT_LOADED") /\
  (k <= 9 -> k + n = 10 ->
     datagrams tr = [encode "ALERT|MODEL_NOT_LOADED"] /\ last_predictions w' = []).
Proof.
  induction 1 as [w | n w address args tr w' Hrest IH
                 | n w env timestamp tr1 w1 tr w' Hml Hfull Hrun Hrest IH];
    intros k Hk.
  - split.
    + intros _. rewrite Nat.add_0_r. split; [reflexivity | exact Hk].
    + intros H1 H2. lia.
  - apply IH. rewrite receive_last_predictions. exact Hk.
  - destruct (sentinel_cycle env timestamp w w1 tr1 Hml Hfull Hrun)
      as (tr2 & Hupdate & Hdata).
    rewrite datagrams_app, Hdata. rewrite Hk in Hupdate.
    destruct (Nat.eq_dec k 9) as [-> | Hne].
    + rewrite update_history_fires in Hupdate by apply alert_fires_replicate.
      injection Hupdate as <- Hw1. symmetry in Hw1.
      split; [lia |]. intros _ Hn.
      destruct (IH 0 Hw1) as [Hquiet _].
      destruct (Hquiet ltac:(lia)) as [Hd Hl].
      rewrite Hd. replace n with 0 in Hl by lia. split; [reflexivity | exact Hl].
    + split.
      * intros Hle.
        rewrite update_history_quiet in Hupdate
          by (apply alert_fires_short; rewrite length_replicate; lia).
        rewrite deque_append_short in Hupdate by (rewrite length_replicate; lia).
        injection Hupdate as <- Hw1. symmetry in Hw1.
        change ["MODEL_NOT_LOADED"] with (replicate 1 "MODEL_NOT_LOADED") in Hw1.
        rewrite <- replicate_add in Hw1.
        destruct (IH (k + 1) Hw1) as [Hquiet _].
        destruct (Hquiet ltac:(lia)) as [Hd Hl].
        rewrite Hd. replace (k + S n) with (k + 1 + n) by lia.
        split; [reflexivity | exact Hl].
      * intros Hle Hten.
        rewrite update_history_quiet in Hupdate
          by (apply alert_fires_short; rewrite length_replicate; lia).
        rewrite deque_append_short in Hupdate by (rewrite length_replicate; lia).
        injection Hupdate as <- Hw1. symmetry in Hw1.
        change ["MODEL_NOT_LOADED"] with (replicate 1 "MODEL_NOT_LOADED") in Hw1.
        rewrite <- replicate_add in Hw1.
        destruct (IH (k + 1) Hw1) as [_ Hfire].
        destruct (Hfire ltac:(lia) ltac:(lia)) as [Hd Hl].
        rewrite Hd. split; [reflexivity | exact Hl].
Qed.
End Sentinel.

Lemma full_cycles_receive_all (ml0 : ml_components) (msgs : list (string * Q))
    (n : nat) (w w' : world) (tr : list event) :
  full_cycles ml0 n (receive_all msgs w) tr w' -> full_cycles ml0 n w tr w'.
Proof.
  revert w. induction msgs as [| m msgs IH]; intros w Hrun; [exact Hrun |].
  apply (full_cycles_receive ml0 n w (fst m) [snd m]).
  apply IH. exact Hrun.
Qed.

Lemma run_full_cycles_sound (env : environment) (msgs : list (string * Q))
    (n : nat) (w w' : world) (tr : list event) :
  run_full_cycles env msgs n w = Some (tr, w') ->
  full_cycles (ml env) n w tr w'.
Proof.
  revert w tr. induction n as [| n IH]; intros w tr Hrun; simpl in Hrun.
  - injection Hrun as <- <-. constructor.
  - destruct (full_vector (receive_all msgs w)) eqn:Hfull; [| discriminate].
    destruct (aggregate_iteration env 0%Q (receive_all msgs w))
      as [tr1 [w1 | e]] eqn:Hiter; [| discriminate].
    destruct (run_full_cycles env msgs n w1) as [[tr2 w2] |] eqn:Hrest; [| discriminate].
    injection Hrun as <- <-.
    apply full_cycles_receive_all with (msgs := msgs).
    eapply full_cycles_tick; [reflexivity | exact Hfull | exact Hiter |].
    apply IH. exact Hrest.
Qed.

(** The alert condition: ten entries after the append, all of them the new
    label. *)
Lemma alert_fires_spec (h : list string) (l : string) :
  alert_fires h l = true <->
  10 <= length (deque_append 10 h l) /\
  forall y, y ∈ deque_append 10 h l -> y = l.
Proof.
  unfold alert_fires. rewrite andb_true_iff, Nat.leb_le, Nat.eqb_eq, unique_preds_one.
  assert (Hin : l ∈ deque_append 10 h l).
  { unfold deque_append. destruct (10 <? length (h ++ [l])) eqn:Hlong.
    - apply Nat.ltb_lt in Hlong. rewrite length_app in Hlong. simpl in Hlong.
      destruct h as [| a h]; [simpl in Hlong; lia |].
      simpl. apply elem_of_app. right. apply list_elem_of_singleton. reflexivity.
    - apply elem_of_app. right. apply list_elem_of_singleton. reflexivity. }
  split; intros [Hlen Hsame]; (split; [exact Hlen |]).
  - destruct Hsame as (x & _ & Hall). intros y Hy.
    rewrite (Hall y Hy). symmetry. apply Hall. exact Hin.
  - exists l. split; assumption.
Qed.

(** ** The socket does not influence the state *)

Lemma update_history_socket (sock sock' : socket) (h : list string) (l : string) :
  snd (update_history sock h l) = snd (update_history sock' h l).
Proof.
  destruct (alert_fires h l) eqn:Hfire.
  - rewrite !update_history_fires by exact Hfire. reflexivity.
  - rewrite !update_history_quiet by exact Hfire. reflexivity.
Qed.

Lemma aggregate_iteration_socket (ml0 : ml_components) (pandas0 : result unit)
    (sock sock' : socket) (timestamp : Q) (w : world) :
  snd (aggregate_iteration
         {| ml := ml0; pandas := pandas0; unity_socket := sock |} timestamp w)
  = snd (aggregate_iteration
           {| ml := ml0; pandas := pandas0; unity_socket := sock' |} timestamp w).
Proof.
  destruct (full_vector w) eqn:Hfull.
  - destruct (aggregate_iteration_full
                {| ml := ml0; pandas := pandas0; unity_socket := sock |}
                timestamp w Hfull)
      as (row & buf' & eda & temp & v & s & tr1 & label & tr2 & h
          & Hlocked & _ & _ & _ & _ & Hpredict & Hupdate & ->).
    destruct (aggregate_iteration_full
                {| ml := ml0; pandas := pandas0; unity_socket := sock' |}
                timestamp w Hfull)
      as (row' & buf'' & eda' & temp' & v' & s' & tr1' & label' & tr2' & h'
          & Hlocked' & _ & _ & _ & _ & Hpredict' & Hupdate' & ->).
    rewrite Hlocked in Hlocked'. injection Hlocked' as <- <- <- <- <-.
    cbn [ml pandas unity_socket] in *.
    rewrite Hpredict in Hpredict'. injection Hpredict' as <- <-.
    pose proof (update_history_socket sock sock' (last_predictions w) label) as Hsock.
    rewrite Hupdate, Hupdate' in Hsock. cbn [snd] in *.
    injection Hsock as <-. reflexivity.
  - destruct (aggregate_iteration_incomplete
                {| ml := ml0; pandas := pandas0; unity_socket := sock |}
                timestamp w Hfull) as (row & pd & buf' & Hlocked & ->).
    destruct (aggregate_iteration_incomplete
                {| ml := ml0; pandas := pandas0; unity_socket := sock' |}
                timestamp w Hfull) as (row' & pd' & buf'' & Hlocked' & ->).
    rewrite Hlocked in Hlocked'. injection Hlocked' as <- <- <-. reflexivity.
Qed.

(** ** Worked examples *)

(** On a flat top the detected peak is the middle of the top. *)
Example flat_top_example_peaks :
  find_peaks flat_top_example = [1; 3] /\
  find_peaks (map Qopp flat_top_example) = [2] /\
  compute_bva flat_top_example = Some 1%Q.
Proof. repeat split. Qed.

Example find_peaks_plateaus :
  find_peaks [1; 2; 2; 1; 1; 3; 3; 3; 3; 1; 0; 5; 5]%Q = [1; 6].
Proof. reflexivity. Qed.

Example upper_example : upper "Medium load_2" = "MEDIUM LOAD_2".
Proof. reflexivity. Qed.

Example encode_example :
  encode "ALERT|LOW" =
    [Byte.x41; Byte.x4c; Byte.x45; Byte.x52; Byte.x54; Byte.x7c;
     Byte.x4c; Byte.x4f; Byte.x57].
Proof. reflexivity. Qed.

Example split_example :
  split "/" "/EmotiBit/0/PPG:IR" = [""; "EmotiBit"; "0"; "PPG:IR"].
Proof. reflexivity. Qed.

Example tracked_channels_example :
  tracked_channels =
    [ "ACC:X"; "ACC:Y"; "ACC:Z"; "PPG:RED"; "PPG:IR"; "PPG:GRN"; "EDA";
      "HUMIDITY"; "TEMP"; "T1"; "HR";
      "GYRO:X"; "GYRO:Y"; "GYRO:Z"; "MAG:X"; "MAG:Y"; "MAG:Z" ].
Proof. vm_compute. reflexivity. Qed.

(** Ten identical real labels through the whole pipeline send one alert. *)
Example ten_cycles_alert :
  exists tr w',
    run_full_cycles (stub_env (stub_ml constant_classifier) working_socket)
      cycle_messages 10 empty_world = Some (tr, w') /\
    datagrams tr = [encode "ALERT|HIGH"] /\
    last_predictions w' = [] /\
    length (csv_file w') = 10 /\
    length (prediction_file w') = 10.
Proof.
  eexists _, _. split; [vm_compute; reflexivity |].
  repeat split.
Qed.

(** * The claims of the specification *)

(** ** Alert debouncer *)

(** C1: from an empty alert history, ten identical labels in a row send
    exactly one alert, at the tenth label and carrying that label; the first
    nine send nothing; the history is empty right after the alert; and fewer
    than ten further labels cannot send another one: the history has to grow
    from empty to ten entries again. *)
Theorem C1_ten_identical_labels_fire_once (sock : socket) (label : string) :
  feed sock (replicate 9 label) [] = ([], Ok (replicate 9 label)) /\
  (exists tr,
     feed sock (replicate 10 label) [] = (tr, Ok []) /\
     datagrams tr = [encode (String.append "ALERT|" (upper label))]) /\
  (forall more, length more < 10 ->
     exists tr,
       feed sock (replicate 10 label ++ more) [] = (tr, Ok more) /\
       datagrams tr = [encode (String.append "ALERT|" (upper label))]).
Proof.
  assert (Hnine : feed sock (replicate 9 label) [] = ([], Ok (replicate 9 label))).
  { apply feed_short. rewrite length_replicate. simpl. lia. }
  assert (Hten : exists tr,
     feed sock (replicate 10 label) [] = (tr, Ok []) /\
     datagrams tr = [encode (String.append "ALERT|" (upper label))]).
  { rewrite (replicate_S_end 9), feed_app, Hnine.
    unfold bind at 1. cbn [feed].
    rewrite update_history_fires by apply alert_fires_replicate.
    eexists. split; reflexivity. }
  split; [exact Hnine | split; [exact Hten |]].
  intros more Hmore. destruct Hten as (tr & Hfeed & Hdata).
  rewrite feed_app, Hfeed. unfold bind.
  rewrite feed_short by (simpl; lia).
  exists (tr ++ []). split; [reflexivity |].
  rewrite app_nil_r. exact Hdata.
Qed.

Lemma C1_witness :
  length ["low"; "low"; "medium"] < 10 /\
  exists tr,
    feed working_socket (replicate 10 "high" ++ ["low"; "low"; "medium"]) []
      = (tr, Ok ["low"; "low"; "medium"]) /\
    datagrams tr = [encode (String.append "ALERT|" (upper "high"))].
Proof.
  split; [simpl; lia |].
  apply (proj2 (proj2 (C1_ten_identical_labels_fire_once working_socket "high"))).
  simpl; lia.
Defined.

(** C2, as the code has it: the alert history never holds more than ten
    entries; when an append leaves ten entries that are not all equal, no
    alert is sent and the history is not wiped: the oldest entry leaves only
    if the history already held ten entries before the append, and nothing
    leaves otherwise.  Nine identical labels and then a different one, from
    an empty history, send nothing and leave the nine identical labels
    followed by the different one. *)
Theorem C2_history_bounded_sliding_window (sock : socket) :
  (forall labels, exists tr h,
     feed sock labels [] = (tr, Ok h) /\ length h <= 10) /\
  (forall h l,
     length h <= 10 ->
     length (deque_append 10 h l) = 10 ->
     ~ (exists x, forall y, y ∈ deque_append 10 h l -> y = x) ->
     update_history sock h l = ([], Ok (deque_append 10 h l)) /\
     deque_append 10 h l = (if length h =? 10 then tl h else h) ++ [l]) /\
  (forall a b, a <> b ->
     feed sock (replicate 9 a ++ [b]) [] = ([], Ok (replicate 9 a ++ [b]))).
Proof.
  split; [| split].
  - intros labels. apply feed_bounded. simpl. lia.
  - intros h l Hlen Hten Hmixed. split.
    + apply update_history_quiet.
      destruct (alert_fires h l) eqn:Hfire; [| reflexivity].
      exfalso. apply Hmixed. exists l. apply alert_fires_spec. exact Hfire.
    + destruct (Nat.eqb_spec (length h) 10) as [Hfull | Hnot].
      * apply deque_append_full; [exact Hfull | lia].
      * apply deque_append_short. lia.
  - intros a b Hab.
    rewrite feed_app, feed_short by (rewrite length_replicate; simpl; lia).
    unfold bind at 1. cbn [feed app].
    assert (Hquiet : alert_fires (replicate 9 a) b = false).
    { destruct (alert_fires (replicate 9 a) b) eqn:Hfire; [| reflexivity].
      exfalso. apply alert_fires_spec in Hfire as [_ Hsame].
      apply Hab. apply Hsame.
      rewrite deque_append_short by (rewrite length_replicate; lia).
      apply elem_of_app. left. apply elem_of_replicate. split; [reflexivity | lia]. }
    rewrite update_history_quiet by exact Hquiet.
    rewrite deque_append_short by (rewrite length_replicate; lia).
    reflexivity.
Qed.

Lemma C2_witness :
  "low" <> "high" /\
  feed working_socket (replicate 9 "low" ++ ["high"]) []
    = ([], Ok (replicate 9 "low" ++ ["high"])) /\
  update_history working_socket (replicate 9 "low" ++ ["high"]) "low"
    = ([], Ok (replicate 8 "low" ++ ["high"; "low"])).
Proof.
  split; [discriminate |].
  split.
  - apply (proj2 (proj2 (C2_history_bounded_sliding_window working_socket))).
    discriminate.
  - apply (proj1 (proj2 (C2_history_bounded_sliding_window working_socket))
             (replicate 9 "low" ++ ["high"]) "low").
    + simpl. lia.
    + reflexivity.
    + intros (x & Hall).
      assert (H1 : "high" = x).
      { apply Hall. vm_compute. do 8 apply list_elem_of_further.
        apply list_elem_of_here. }
      assert (H2 : "low" = x).
      { apply Hall. vm_compute. apply list_elem_of_here. }
      rewrite <- H1 in H2. discriminate.
Defined.

(** C2, as the claim words it, fails: after nine identical labels the append
    of a different one leaves ten entries that are not all equal, yet the
    oldest entry is still there and the new label replaced nothing. *)
Lemma C2_counterexample :
  feed working_socket (replicate 9 "low") [] = ([], Ok (replicate 9 "low")) /\
  update_history working_socket (replicate 9 "low") "high"
    = ([], Ok (replicate 9 "low" ++ ["high"])) /\
  length (replicate 9 "low" ++ ["high"]) = 10 /\
  replicate 9 "low" ++ ["high"] <> tl (replicate 9 "low") ++ ["high"] /\
  ~ (forall h l h',
       update_history working_socket h l = ([], Ok h') ->
       length h' = 10 ->
       ~ (exists x, forall y, y ∈ h' -> y = x) ->
       h' = tl h ++ [l]).
Proof.
  assert (Hstep : update_history working_socket (replicate 9 "low") "high"
                  = ([], Ok (replicate 9 "low" ++ ["high"])))
    by (vm_compute; reflexivity).
  split; [vm_compute; reflexivity |].
  split; [exact Hstep |].
  split; [reflexivity |].
  split; [discriminate |].
  intros Hclaim.
  specialize (Hclaim (replicate 9 "low") "high" _ Hstep eq_refl).
  assert (Hmixed : ~ (exists x : string,
            forall y, y ∈ replicate 9 "low" ++ ["high"] -> y = x)).
  { intros (x & Hall).
    assert (H1 : "low" = x).
    { apply Hall. apply elem_of_app. left. apply elem_of_replicate.
      split; [reflexivity | lia]. }
    assert (H2 : "high" = x).
    { apply Hall. apply elem_of_app. right. apply list_elem_of_singleton. reflexivity. }
    rewrite <- H1 in H2. discriminate. }
  specialize (Hclaim Hmixed). discriminate.
Qed.



(** ** Blood volume amplitude *)

(** C3: for a sequence of at least ten samples with a strict local maximum
    and a strict local minimum, [compute_bva] returns the absolute difference
    between the sample at the highest-index detected peak and the sample at
    the highest-index detected trough.  The detected peaks contain every
    strict local maximum (and the middle of every flat top), so no strict
    local maximum lies after the chosen peak; without two equal samples in a
    row the chosen peak and trough are themselves strict.  On
    [1,5,2,8,3,9,1,6,2,7] the peaks are 5, 8, 9, 6 and the result is
    |6 - 2| = 4, not |9 - 1| = 8. *)
Theorem C3_last_peak_last_trough :
  (forall x : list Q,
     10 <= length x ->
     (exists j, strict_local_max x j) ->
     (exists k, strict_local_min x k) ->
     exists p t,
       p ∈ find_peaks x /\
       (forall q, q ∈ find_peaks x -> q <= p) /\
       (forall j, strict_local_max x j -> j <= p) /\
       t ∈ find_peaks (map Qopp x) /\
       (forall q, q ∈ find_peaks (map Qopp x) -> q <= t) /\
       (forall k, strict_local_min x k -> k <= t) /\
       ((forall k, k + 1 < length x -> ~ (nth k x 0 == nth (k + 1) x 0)%Q) ->
        strict_local_max x p /\ strict_local_min x t) /\
       compute_bva x = Some (Qabs (nth p x 0%Q - nth t x 0%Q))) /\
  (length spec_example = 10 /\
   map (fun p => nth p spec_example 0%Q) (find_peaks spec_example)
     = [5; 8; 9; 6]%Q /\
   map (fun t => nth t spec_example 0%Q) (find_peaks (map Qopp spec_example))
     = [2; 3; 1; 2]%Q /\
   compute_bva spec_example = Some (Qabs (6 - 2)) /\
   compute_bva spec_example = Some 4%Q /\
   ~ (4 == Qabs (9 - 1))%Q).
Proof.
  split.
  - intros x Hlen [j Hj] [k Hk].
    pose proof (find_peaks_complete x j Hj) as Hjin.
    pose proof (find_peaks_complete (map Qopp x) k
                  (proj1 (strict_local_min_opp x k) Hk)) as Hkin.
    assert (Hp : find_peaks x <> []) by (intros Heq; rewrite Heq in Hjin; inversion Hjin).
    assert (Ht : find_peaks (map Qopp x) <> [])
      by (intros Heq; rewrite Heq in Hkin; inversion Hkin).
    exists (List.last (find_peaks x) 0), (List.last (find_peaks (map Qopp x)) 0).
    assert (Hpmax : forall q, q ∈ find_peaks x -> q <= List.last (find_peaks x) 0)
      by (intros q; apply last_greatest, find_peaks_sorted).
    assert (Htmax : forall q, q ∈ find_peaks (map Qopp x) ->
                              q <= List.last (find_peaks (map Qopp x)) 0)
      by (intros q; apply last_greatest, find_peaks_sorted).
    split; [apply last_elem_of; exact Hp |].
    split; [exact Hpmax |].
    split; [intros j' Hj'; apply Hpmax, find_peaks_complete; exact Hj' |].
    split; [apply last_elem_of; exact Ht |].
    split; [exact Htmax |].
    split; [intros k' Hk'; apply Htmax, find_peaks_complete, strict_local_min_opp;
            exact Hk' |].
    split; [| apply compute_bva_some; assumption].
    intros Hdistinct. split.
    + apply find_peaks_strict; [exact Hdistinct | apply last_elem_of; exact Hp].
    + apply strict_local_min_opp. apply find_peaks_strict; [| apply last_elem_of; exact Ht].
      intros i. rewrite length_map, !nth_map_Qopp. intros Hi Heq.
      apply (Hdistinct i Hi). lra.
  - repeat split; try reflexivity. intros H. discriminate H.
Qed.

Lemma C3_witness :
  10 <= length spec_example /\
  strict_local_max spec_example 1 /\
  strict_local_min spec_example 2 /\
  exists p t,
    p ∈ find_peaks spec_example /\
    (forall q, q ∈ find_peaks spec_example -> q <= p) /\
    (forall j, strict_local_max spec_example j -> j <= p) /\
    t ∈ find_peaks (map Qopp spec_example) /\
    (forall q, q ∈ find_peaks (map Qopp spec_example) -> q <= t) /\
    (forall k, strict_local_min spec_example k -> k <= t) /\
    ((forall k, k + 1 < length spec_example ->
        ~ (nth k spec_example 0 == nth (k + 1) spec_example 0)%Q) ->
     strict_local_max spec_example p /\ strict_local_min spec_example t) /\
    compute_bva spec_example
      = Some (Qabs (nth p spec_example 0%Q - nth t spec_example 0%Q)).
Proof.
  assert (Hmax : strict_local_max spec_example 1)
    by (unfold strict_local_max; simpl; repeat split; try lia; reflexivity).
  assert (Hmin : strict_local_min spec_example 2)
    by (unfold strict_local_min; simpl; repeat split; try lia; reflexivity).
  split; [simpl; lia |].
  split; [exact Hmax |].
  split; [exact Hmin |].
  apply (proj1 C3_last_peak_last_trough spec_example).
  - simpl; lia.
  - exists 1. exact Hmax.
  - exists 2. exact Hmin.
Defined.

(** C4: [compute_bva] returns [None] for every sequence of fewer than ten
    samples and for every sequence whose detected peaks or detected troughs
    are empty, which includes every strictly increasing and every strictly
    decreasing sequence. *)
Theorem C4_bva_undefined (x : list Q) :
  length x < 10 \/
  find_peaks x = [] \/ find_peaks (map Qopp x) = [] \/
  strictly_increasing x \/ strictly_decreasing x ->
  compute_bva x = None.
Proof.
  intros H. apply compute_bva_none.
  destruct H as [H | [H | [H | [H | H]]]].
  - left. exact H.
  - right. left. exact H.
  - right. right. exact H.
  - right. left. apply find_peaks_increasing. exact H.
  - right. left. apply find_peaks_decreasing. exact H.
Qed.

Lemma C4_witness :
  compute_bva [1; 5; 2; 8; 3; 9; 1; 6; 2]%Q = None /\
  compute_bva rising_example = None /\
  compute_bva (map Qopp rising_example) = None.
Proof.
  assert (Hrising : strictly_increasing rising_example).
  { intros i Hi. simpl in Hi.
    do 11 (destruct i as [| i]; [reflexivity |]). lia. }
  split; [| split].
  - apply C4_bva_undefined. left. simpl. lia.
  - apply C4_bva_undefined. right. right. right. left. exact Hrising.
  - apply C4_bva_undefined. right. right. right. right.
    apply strictly_increasing_opp. exact Hrising.
Defined.

(** ** The aggregation cycle *)

(** C5: in every cycle whose BVA is present, the aggregated row written to
    the main data file holds the raw BVA, while the rescaled value is zero
    whatever the raw value is; when the feature vector is full, that zero is
    what goes to the feature file, to the prediction file and to the
    classifier adapter. *)
Theorem C5_rescaled_bva_constant (env : environment) (timestamp : Q) (w : world) (v : Q) :
  compute_bva (samples (data_buffer w) "PPG:IR") = Some v ->
  exists row pd buf' s tr w',
    locked_section timestamp (data_buffer w) = Ok (row, pd, buf') /\
    row !! "BVA" = Some (Some v) /\
    pd_BVA pd = Some s /\ (s == 0)%Q /\
    aggregate_iteration env timestamp w = (tr, Ok w') /\
    csv_file w' = csv_file w ++ [row] /\
    (full_vector w = true ->
     exists eda temp tr1 label tr2,
       predict_cognitive_load (pandas env) (ml env) eda temp s = (tr1, Ok label) /\
       tr = tr1 ++ Print (Predicted label) :: tr2 /\
       cogload_file w' = cogload_file w ++ [(eda, temp, s)] /\
       prediction_file w' = prediction_file w ++ [(timestamp, eda, temp, s, label)]).
Proof.
  intros Hbva.
  destruct (locked_section_spec timestamp (data_buffer w))
    as (row & bva_scaled & buf' & Hlocked & _ & Hrow & _ & _ & Hscaled & _).
  rewrite Hbva in Hrow, Hscaled. destruct Hscaled as (s & -> & Hs).
  destruct (full_vector w) eqn:Hfull.
  - destruct (aggregate_iteration_full env timestamp w Hfull)
      as (row' & buf'' & eda & temp & v' & s' & tr1 & label & tr2 & h
          & Hlocked' & _ & _ & _ & _ & Hpredict & _ & Hiter).
    rewrite Hlocked in Hlocked'. injection Hlocked' as Hr Hs' He Ht Hb.
      subst row' s' buf''.
    eexists row, _, buf', s, _, _.
    split; [exact Hlocked |].
    split; [exact Hrow |].
    split; [reflexivity |].
    split; [exact Hs |].
    split; [exact Hiter |].
    split; [reflexivity |].
    intros _. exists eda, temp, tr1, label, tr2.
    split; [exact Hpredict |]. repeat split.
  - destruct (aggregate_iteration_incomplete env timestamp w Hfull)
      as (row' & pd' & buf'' & Hlocked' & Hiter).
    rewrite Hlocked in Hlocked'. injection Hlocked' as <- <- <-.
    eexists row, _, buf', s, _, _.
    split; [exact Hlocked |].
    split; [exact Hrow |].
    split; [reflexivity |].
    split; [exact Hs |].
    split; [exact Hiter |].
    split; [reflexivity |].
    intros Habs. discriminate Habs.
Qed.

Lemma C5_witness :
  compute_bva (samples (data_buffer (receive_all cycle_messages empty_world)) "PPG:IR")
    = Some 4%Q /\
  exists row pd buf' s tr w',
    locked_section 7 (data_buffer (receive_all cycle_messages empty_world))
      = Ok (row, pd, buf') /\
    row !! "BVA" = Some (Some 4%Q) /\
    pd_BVA pd = Some s /\ (s == 0)%Q /\
    aggregate_iteration (stub_env (stub_ml constant_classifier) working_socket) 7
      (receive_all cycle_messages empty_world) = (tr, Ok w') /\
    csv_file w' = csv_file (receive_all cycle_messages empty_world) ++ [row] /\
    (full_vector (receive_all cycle_messages empty_world) = true ->
     exists eda temp tr1 label tr2,
       predict_cognitive_load (Ok tt) (stub_ml constant_classifier) eda temp s
         = (tr1, Ok label) /\
       tr = tr1 ++ Print (Predicted label) :: tr2 /\
       cogload_file w'
         = cogload_file (receive_all cycle_messages empty_world) ++ [(eda, temp, s)] /\
       prediction_file w'
         = prediction_file (receive_all cycle_messages empty_world)
           ++ [(7%Q, eda, temp, s, label)]).
Proof.
  split; [vm_compute; reflexivity |].
  apply (C5_rescaled_bva_constant
           (stub_env (stub_ml constant_classifier) working_socket) 7
           (receive_all cycle_messages empty_world) 4%Q).
  vm_compute; reflexivity.
Defined.



(** ** Classifier adapter *)

(** C6: for every input, when any of the four collaborators failed to load
    (so that one of the four globals is [None]) the adapter returns
    [MODEL_NOT_LOADED] without calling any collaborator; when scoring
    raises, it returns [PREDICTION_ERROR] after printing the failure; and in
    every case it returns a label rather than raising. *)
Theorem C6_adapter_sentinels (pandas0 : result unit) (eda temp bva : Q) :
  (forall a : artifacts,
     (exists e, random_forest_model_pkl a = Raise e) \/
     (exists e, standard_scaler_pkl a = Raise e) \/
     (exists e, bva_scaler_pkl a = Raise e) \/
     (exists e, label_encoder_pkl a = Raise e) ->
     predict_cognitive_load pandas0 (load_ml_components a) eda temp bva
       = ([], Ok "MODEL_NOT_LOADED")) /\
  (forall ml0 : ml_components,
     clf ml0 = None \/ std_scaler ml0 = None \/
     bva_scaler ml0 = None \/ label_encoder ml0 = None ->
     predict_cognitive_load pandas0 ml0 eda temp bva = ([], Ok "MODEL_NOT_LOADED")) /\
  (forall (ml0 : ml_components) c s b l tr e,
     clf ml0 = Some c -> std_scaler ml0 = Some s ->
     bva_scaler ml0 = Some b -> label_encoder ml0 = Some l ->
     scoring pandas0 c s b l eda temp bva = (tr, Raise e) ->
     predict_cognitive_load pandas0 ml0 eda temp bva
       = (tr ++ [Print (PredictionFailed e)], Ok "PREDICTION_ERROR")) /\
  (forall ml0 : ml_components,
     exists tr label,
       predict_cognitive_load pandas0 ml0 eda temp bva = (tr, Ok label)).
Proof.
  split; [| split; [| split]].
  - intros a Hfailed. apply predict_cognitive_load_unloaded.
    apply load_ml_components_failed. exact Hfailed.
  - intros ml0 Hnone. apply predict_cognitive_load_unloaded.
    apply none_in_true. exact Hnone.
  - intros ml0 c s b l tr e Hc Hs Hb Hl Hraise.
    rewrite (predict_cognitive_load_loaded pandas0 ml0 c s b l) by assumption.
    rewrite Hraise. reflexivity.
  - intros ml0. apply predict_cognitive_load_ok.
Qed.

Lemma C6_witness :
  predict_cognitive_load (Ok tt)
    (load_ml_components
       {| random_forest_model_pkl := Ok constant_classifier;
          standard_scaler_pkl := Ok {| std_transform := fun f => Ok f |};
          bva_scaler_pkl := Raise (OtherException "no such file");
          label_encoder_pkl := Ok {| inverse_transform := fun _ => Ok "high" |} |})
    (1 # 2) 30 0
    = ([], Ok "MODEL_NOT_LOADED") /\
  predict_cognitive_load (Ok tt) (stub_ml failing_classifier) (1 # 2) 30 0
    = ( [ Scoring ImportPandas; Scoring (BvaTransform 0);
          Scoring (StdTransform (1 # 2, 30, 0)%Q);
          Scoring (ClfPredict (1 # 2, 30, 0)%Q) ]
        ++ [Print (PredictionFailed (OtherException "shape mismatch"))],
        Ok "PREDICTION_ERROR" ).
Proof.
  split.
  - apply (proj1 (C6_adapter_sentinels (Ok tt) (1 # 2) 30 0)).
    right. right. left. eexists. reflexivity.
  - apply (proj1 (proj2 (proj2 (C6_adapter_sentinels (Ok tt) (1 # 2) 30 0)))
             (stub_ml failing_classifier) failing_classifier
             {| std_transform := fun f => Ok f |}
             {| bva_transform := fun b => Ok b |}
             {| inverse_transform := fun _ => Ok "high" |});
      reflexivity.
Defined.

(** ** Sentinels and consensus *)

(** C9: in a cycle with a full feature vector the label the adapter
    returns, whatever it is, is the one appended to the alert history; with
    the models missing that label is [MODEL_NOT_LOADED], and ten such cycles
    in a row from an empty history send exactly one alert,
    [ALERT|MODEL_NOT_LOADED], and leave the history empty. *)
Theorem C9_sentinels_count_toward_consensus :
  (forall env timestamp w,
     full_vector w = true ->
     exists eda temp bva tr1 label tr2 tr w',
       predict_cognitive_load (pandas env) (ml env) eda temp bva = (tr1, Ok label) /\
       update_history (unity_socket env) (last_predictions w) label
         = (tr2, Ok (last_predictions w')) /\
       aggregate_iteration env timestamp w = (tr, Ok w') /\
       datagrams tr = datagrams tr2) /\
  (forall ml0 w tr w',
     none_in ml0 = true ->
     last_predictions w = [] ->
     full_cycles ml0 10 w tr w' ->
     datagrams tr = [encode "ALERT|MODEL_NOT_LOADED"] /\
     last_predictions w' = []).
Proof.
  split.
  - intros env timestamp w Hfull.
    destruct (aggregate_iteration_full env timestamp w Hfull)
      as (row & buf' & eda & temp & v & s & tr1 & label & tr2 & h
          & _ & _ & _ & _ & _ & Hpredict & Hupdate & Hiter).
    eexists eda, temp, s, tr1, label, tr2, _, _.
    split; [exact Hpredict |].
    split; [| split; [exact Hiter |]].
    + exact Hupdate.
    + rewrite datagrams_app.
      assert (Hquiet : datagrams tr1 = []).
      { clear -Hpredict. unfold predict_cognitive_load, try_except in Hpredict.
        destruct (clf (ml env)), (std_scaler (ml env)),
                 (bva_scaler (ml env)), (label_encoder (ml env));
          try (injection Hpredict as <- _; reflexivity).
        unfold scoring, bind, call, emit, ret in Hpredict.
        repeat match type of Hpredict with
               | context [match ?r with Ok _ => _ | Raise _ => _ end] =>
                   destruct r
               end;
          injection Hpredict as <- _; reflexivity. }
      rewrite Hquiet. reflexivity.
  - intros ml0 w tr w' Hnone Hempty Hrun.
    apply (sentinel_cycles ml0 Hnone 10 w w' tr Hrun 0 Hempty); lia.
Qed.

Lemma C9_witness :
  none_in unloaded_ml = true /\
  last_predictions empty_world = [] /\
  exists tr w',
    full_cycles unloaded_ml 10 empty_world tr w' /\
    datagrams tr = [encode "ALERT|MODEL_NOT_LOADED"] /\
    last_predictions w' = [].
Proof.
  split; [reflexivity |]. split; [reflexivity |].
  assert (Hrun : exists tr w',
            run_full_cycles (stub_env unloaded_ml working_socket)
              cycle_messages 10 empty_world = Some (tr, w')).
  { eexists _, _. vm_compute. reflexivity. }
  destruct Hrun as (tr & w' & Hrun).
  apply run_full_cycles_sound in Hrun.
  exists tr, w'. split; [exact Hrun |].
  apply (proj2 C9_sentinels_count_toward_consensus unloaded_ml empty_world tr w');
    [reflexivity | reflexivity | exact Hrun].
Defined.

(** ** Temperature channel *)

(** C10: the temperature of the feature vector is the mean of channel [T1],
    the channel in which samples addressed to [TEMP2] are stored, and does
    not depend on channel [TEMP]; samples addressed to [TEMP] are stored in
    [TEMP] and leave [T1] alone; and in a cycle where [TEMP] has samples but
    [T1] has none, nothing is written to the feature file or the prediction
    file, no collaborator is called, nothing is printed or sent and the
    alert history is unchanged. *)
Theorem C10_temperature_is_T1 (env : environment) (timestamp : Q) (w : world) :
  (exists row pd buf',
     locked_section timestamp (data_buffer w) = Ok (row, pd, buf') /\
     pd_Temp pd = channel_mean (samples (data_buffer w) "T1") /\
     row !! "T1" = Some (pd_Temp pd)) /\
  (forall temp_samples, exists row pd buf',
     locked_section timestamp (<["TEMP" := temp_samples]> (data_buffer w))
       = Ok (row, pd, buf') /\
     pd_Temp pd = channel_mean (samples (data_buffer w) "T1")) /\
  (forall prefix v rest, exists buf,
     generic_handler (String.append prefix "/TEMP2") (v :: rest) (data_buffer w) = Ok buf /\
     samples buf "T1" = deque_append 500 (samples (data_buffer w) "T1") v /\
     samples buf "TEMP" = samples (data_buffer w) "TEMP") /\
  (forall prefix v rest, exists buf,
     generic_handler (String.append prefix "/TEMP") (v :: rest) (data_buffer w) = Ok buf /\
     samples buf "TEMP" = deque_append 500 (samples (data_buffer w) "TEMP") v /\
     samples buf "T1" = samples (data_buffer w) "T1") /\
  (samples (data_buffer w) "TEMP" <> [] ->
   samples (data_buffer w) "T1" = [] ->
   full_vector w = false /\
   exists w',
     aggregate_iteration env timestamp w = ([], Ok w') /\
     cogload_file w' = cogload_file w /\
     prediction_file w' = prediction_file w /\
     last_predictions w' = last_predictions w).
Proof.
  split; [| split; [| split; [| split]]].
  - destruct (locked_section_spec timestamp (data_buffer w))
      as (row & bva_scaled & buf' & Hlocked & _ & _ & Htracked & _).
    eexists _, _, _. split; [exact Hlocked |]. split; [reflexivity |].
    apply Htracked, T1_tracked.
  - intros temp_samples.
    destruct (locked_section_spec timestamp (<["TEMP" := temp_samples]> (data_buffer w)))
      as (row & bva_scaled & buf' & Hlocked & _).
    eexists _, _, _. split; [exact Hlocked |].
    cbn [pd_Temp]. rewrite samples_insert.
    case_decide as Heq; [discriminate Heq | reflexivity].
  - intros prefix v rest. eexists. split; [apply generic_handler_TEMP2 |].
    rewrite !samples_insert, !getitem_snd.
    split; [case_decide; [reflexivity | congruence] |].
    case_decide as Heq; [discriminate Heq | reflexivity].
  - intros prefix v rest. eexists. split; [apply generic_handler_TEMP |].
    rewrite !samples_insert, !getitem_snd.
    split; [case_decide; [reflexivity | congruence] |].
    case_decide as Heq; [discriminate Heq | reflexivity].
  - intros _ Hnone.
    assert (Hfull : full_vector w = false).
    { unfold full_vector. rewrite Hnone.
      destruct (samples (data_buffer w) "EDA"); reflexivity. }
    split; [exact Hfull |].
    destruct (aggregate_iteration_incomplete env timestamp w Hfull)
      as (row & pd & buf' & _ & Hiter).
    eexists. split; [exact Hiter |]. repeat split.
Qed.

Lemma C10_witness :
  samples (data_buffer (receive_all cycle_messages_TEMP empty_world)) "TEMP" <> [] /\
  samples (data_buffer (receive_all cycle_messages_TEMP empty_world)) "T1" = [] /\
  full_vector (receive_all cycle_messages_TEMP empty_world) = false /\
  exists w',
    aggregate_iteration (stub_env (stub_ml constant_classifier) working_socket) 7
      (receive_all cycle_messages_TEMP empty_world) = ([], Ok w') /\
    cogload_file w' = cogload_file (receive_all cycle_messages_TEMP empty_world) /\
    prediction_file w' = prediction_file (receive_all cycle_messages_TEMP empty_world) /\
    last_predictions w' = last_predictions (receive_all cycle_messages_TEMP empty_world).
Proof.
  split; [vm_compute; discriminate |].
  split; [vm_compute; reflexivity |].
  apply (proj2 (proj2 (proj2 (proj2
           (C10_temperature_is_T1
              (stub_env (stub_ml constant_classifier) working_socket) 7
              (receive_all cycle_messages_TEMP empty_world)))))).
  - vm_compute; discriminate.
  - vm_compute; reflexivity.
Defined.

(** * Further properties of the code *)

(** ** The OSC handler *)

Lemma generic_handler_ok (address : string) (v : Q) (rest : list Q)
    (buf : gmap string (list Q)) :
  generic_handler address (v :: rest) buf =
    Ok (<[signal_of address :=
            deque_append 500 (samples buf (signal_of address)) v]>
          (snd (getitem buf (signal_of address)))).
Proof.
  unfold generic_handler, signal_of, samples.
  destruct (getitem buf _). reflexivity.
Qed.

Lemma signal_of_not_TEMP2 (address : string) : signal_of address <> "TEMP2".
Proof.
  unfold signal_of.
  destruct (String.eqb_spec (List.last (split "/" address) "") "TEMP2");
    [discriminate | assumption].
Qed.

Lemma deque_append_bound {A} (n : nat) (d : list A) (v : A) :
  length d <= n -> length (deque_append n d v) <= n.
Proof.
  intros Hlen. unfold deque_append.
  destruct (Nat.ltb_spec n (length (d ++ [v]))) as [Hlt | Hge]; [| exact Hge].
  rewrite length_app in Hlt. simpl in Hlt.
  destruct d as [| a d]; simpl in *; [lia |].
  rewrite length_app. simpl. lia.
Qed.

(** X1: a message with at least one argument is stored at the end of the
    channel named by the last segment of its address, [TEMP2] being stored
    under [T1]; every other channel keeps its samples; a message without
    arguments raises [IndexError]. *)
Theorem X1_handler_stores_first_argument (address : string) (buf : gmap string (list Q)) :
  generic_handler address [] buf = Raise IndexError /\
  forall v rest, exists buf',
    generic_handler address (v :: rest) buf = Ok buf' /\
    forall k, samples buf' k =
      if decide (k = signal_of address)
      then deque_append 500 (samples buf k) v
      else samples buf k.
Proof.
  split; [reflexivity |].
  intros v rest. eexists. split; [apply generic_handler_ok |].
  intros k. rewrite samples_insert, getitem_snd.
  repeat case_decide; subst; try reflexivity; congruence.
Qed.

(** X3: no message is ever stored under [TEMP2]: whatever the address and
    the arguments, the samples of channel [TEMP2] are the same before and
    after the handler. *)
Theorem X3_nothing_stored_under_TEMP2 (address : string) (args : list Q)
    (buf buf' : gmap string (list Q)) :
  generic_handler address args buf = Ok buf' ->
  samples buf' "TEMP2" = samples buf "TEMP2".
Proof.
  destruct args as [| v rest]; [discriminate |].
  rewrite generic_handler_ok. intros Heq. injection Heq as <-.
  rewrite samples_insert, getitem_snd.
  case_decide as Hk; [| reflexivity].
  exfalso. exact (signal_of_not_TEMP2 address Hk).
Qed.

Lemma X3_witness :
  generic_handler "/EmotiBit/0/TEMP2" [30%Q] ∅ = Ok {[ "T1" := [30%Q] ]} /\
  samples ({[ "T1" := [30%Q] ]} : gmap string (list Q)) "TEMP2" = samples ∅ "TEMP2".
Proof.
  assert (H : generic_handler "/EmotiBit/0/TEMP2" [30%Q] ∅ = Ok {[ "T1" := [30%Q] ]})
    by (vm_compute; reflexivity).
  split; [exact H |].
  apply (X3_nothing_stored_under_TEMP2 "/EmotiBit/0/TEMP2" [30%Q] ∅ _ H).
Defined.

(** ** One cycle, summarised *)

Lemma cycle_summary (env : environment) (timestamp : Q) (w : world) :
  exists tr w' row,
    aggregate_iteration env timestamp w = (tr, Ok w') /\
    csv_file w' = csv_file w ++ [row] /\
    row !! "timestamp" = Some (Some timestamp) /\
    row !! "BVA" = Some (compute_bva (samples (data_buffer w) "PPG:IR")) /\
    (forall k, k ∈ tracked_channels ->
               row !! k = Some (channel_mean (samples (data_buffer w) k))) /\
    (forall k, k ∉ fieldnames -> row !! k = None) /\
    (forall k, samples (data_buffer w') k =
               if decide (k ∈ tracked_channels) then []
               else samples (data_buffer w) k) /\
    length (cogload_file w')
      = length (cogload_file w) + (if full_vector w then 1 else 0) /\
    length (prediction_file w')
      = length (prediction_file w) + (if full_vector w then 1 else 0) /\
    (full_vector w = false ->
     tr = [] /\ last_predictions w' = last_predictions w /\
     cogload_file w' = cogload_file w /\ prediction_file w' = prediction_file w) /\
    (length (last_predictions w) <= 10 -> length (last_predictions w') <= 10).
Proof.
  destruct (locked_section_spec timestamp (data_buffer w))
    as (row & bva_scaled & buf' & Hlocked & Hts & Hbva & Htracked & Hother & _ & Hbuf).
  destruct (full_vector w) eqn:Hfull.
  - destruct (aggregate_iteration_full env timestamp w Hfull)
      as (row' & buf'' & eda & temp & v' & s' & tr1 & label & tr2 & h
          & Hlocked' & _ & _ & _ & _ & _ & Hupdate & Hiter).
    rewrite Hlocked in Hlocked'. injection Hlocked' as Hr Hs' He Ht Hb.
    subst row' buf''.
    eexists _, _, row. split; [exact Hiter |].
    cbn [csv_file cogload_file prediction_file last_predictions data_buffer].
    split; [reflexivity |].
    split; [exact Hts |]. split; [exact Hbva |].
    split; [exact Htracked |]. split; [exact Hother |].
    split; [exact Hbuf |].
    split; [rewrite length_app; reflexivity |].
    split; [rewrite length_app; reflexivity |].
    split; [discriminate |].
    intros Hlen.
    destruct (update_history_bounded (unity_socket env) (last_predictions w) label Hlen)
      as (tr3 & h3 & Hupdate3 & Hlen3).
    rewrite Hupdate in Hupdate3. injection Hupdate3 as _ <-. exact Hlen3.
  - destruct (aggregate_iteration_incomplete env timestamp w Hfull)
      as (row' & pd' & buf'' & Hlocked' & Hiter).
    rewrite Hlocked in Hlocked'. injection Hlocked' as Hr Hp Hb.
    subst row' buf''.
    eexists _, _, row. split; [exact Hiter |].
    cbn [csv_file cogload_file prediction_file last_predictions data_buffer].
    split; [reflexivity |].
    split; [exact Hts |]. split; [exact Hbva |].
    split; [exact Htracked |]. split; [exact Hother |].
    split; [exact Hbuf |].
    split; [lia |]. split; [lia |].
    split; [intros _; repeat split |].
    intros Hlen. exact Hlen.
Qed.

Lemma receive_fields (address : string) (args : list Q) (w : world) :
  last_predictions (receive address args w) = last_predictions w /\
  csv_file (receive address args w) = csv_file w /\
  cogload_file (receive address args w) = cogload_file w /\
  prediction_file (receive address args w) = prediction_file w.
Proof.
  unfold receive.
  destruct (generic_handler address args (data_buffer w)); repeat split.
Qed.

Lemma receive_samples (address : string) (args : list Q) (w : world) (k : string) :
  samples (data_buffer (receive address args w)) k =
    match args with
    | [] => samples (data_buffer w) k
    | v :: _ =>
        if decide (k = signal_of address)
        then deque_append 500 (samples (data_buffer w) k) v
        else samples (data_buffer w) k
    end.
Proof.
  unfold receive. destruct args as [| v rest]; [reflexivity |].
  rewrite generic_handler_ok. cbn [data_buffer].
  rewrite samples_insert, getitem_snd.
  repeat case_decide; subst; try reflexivity; congruence.
Qed.

(** ** Runs of the process *)

Lemma aggregate_iteration_ok (env : environment) (timestamp : Q) (w : world) :
  exists tr w', aggregate_iteration env timestamp w = (tr, Ok w').
Proof.
  destruct (cycle_summary env timestamp w) as (tr & w' & _ & Hiter & _).
  eauto.
Qed.

Lemma run_cons (s : step) (steps : list step) (w w1 : world) (tr1 : list event) :
  run_step s w = (tr1, Ok w1) ->
  run (s :: steps) w = (tr1 ++ fst (run steps w1), snd (run steps w1)).
Proof.
  intros Hstep. simpl. rewrite Hstep. unfold bind.
  destruct (run steps w1). reflexivity.
Qed.

Lemma run_step_ok (s : step) (w : world) :
  exists tr w', run_step s w = (tr, Ok w').
Proof.
  destruct s as [address args | env timestamp]; simpl.
  - unfold ret. eauto.
  - apply aggregate_iteration_ok.
Qed.

Lemma run_ok (steps : list step) (w : world) :
  exists tr w', run steps w = (tr, Ok w').
Proof.
  revert w. induction steps as [| s steps IH]; intros w.
  - simpl. unfold ret. eauto.
  - destruct (run_step_ok s w) as (tr1 & w1 & Hstep).
    rewrite (run_cons s steps w w1 tr1 Hstep).
    destruct (IH w1) as (tr & w' & ->). simpl. eauto.
Qed.

(** A property kept by every message and every cycle is kept by a run. *)
Lemma run_preserves (P : world -> Prop) :
  (forall address args w, P w -> P (receive address args w)) ->
  (forall env timestamp w tr w',
     P w -> aggregate_iteration env timestamp w = (tr, Ok w') -> P w') ->
  forall steps w tr w', P w -> run steps w = (tr, Ok w') -> P w'.
Proof.
  intros Hrecv Htick.
  induction steps as [| s steps IH]; intros w tr w' HP Hrun.
  - simpl in Hrun. injection Hrun as _ <-. exact HP.
  - destruct (run_step_ok s w) as (tr1 & w1 & Hstep).
    rewrite (run_cons s steps w w1 tr1 Hstep) in Hrun.
    destruct (run steps w1) as [tr2 r] eqn:Hrest.
    simpl in Hrun. injection Hrun as _ ->.
    apply (IH w1 tr2 w'); [| exact Hrest].
    destruct s as [address args | env timestamp]; simpl in Hstep.
    + injection Hstep as _ <-. apply Hrecv. exact HP.
    + apply (Htick env timestamp w tr1 w1 HP Hstep).
Qed.

(** X2: no channel ever holds more than 500 samples: the bound is kept by
    every message (a full channel drops its oldest sample) and by every
    cycle, hence along every run of the process. *)
Theorem X2_buffers_stay_bounded (steps : list step) (w w' : world) (tr : list event) :
  buffers_bounded (data_buffer w) ->
  run steps w = (tr, Ok w') ->
  buffers_bounded (data_buffer w').
Proof.
  apply (run_preserves (fun w => buffers_bounded (data_buffer w))).
  - intros address args w0 Hb k. rewrite receive_samples.
    destruct args as [| v rest]; [apply Hb |].
    case_decide; [apply deque_append_bound |]; apply Hb.
  - intros env timestamp w0 tr0 w1 Hb Hiter k.
    destruct (cycle_summary env timestamp w0)
      as (tr1 & w2 & row & Hiter' & _ & _ & _ & _ & _ & Hbuf & _).
    rewrite Hiter in Hiter'. injection Hiter' as _ <-.
    rewrite Hbuf. case_decide; [simpl; lia | apply Hb].
Qed.

Lemma X2_witness :
  buffers_bounded (data_buffer empty_world) /\
  exists tr w',
    run flood empty_world = (tr, Ok w') /\
    samples (data_buffer w') "EDA"
      = map (fun n => inject_Z (Z.of_nat n)) (seq 1 500) /\
    buffers_bounded (data_buffer w').
Proof.
  assert (Hb : buffers_bounded (data_buffer empty_world)).
  { intros k. rewrite samples_lookup. cbn [data_buffer empty_world].
    rewrite lookup_empty. simpl. lia. }
  split; [exact Hb |].
  destruct (run_ok flood empty_world) as (tr & w' & Hrun).
  exists tr, w'. split; [exact Hrun |]. split.
  - assert (Hs : match snd (run flood empty_world) with
                 | Ok w => samples (data_buffer w) "EDA"
                 | Raise _ => []
                 end = map (fun n => inject_Z (Z.of_nat n)) (seq 1 500))
      by (vm_compute; reflexivity).
    rewrite Hrun in Hs. exact Hs.
  - exact (X2_buffers_stay_bounded flood empty_world w' tr Hb Hrun).
Defined.

(** X4: a cycle never raises, and neither does a run of the process: the
    division of the mean is guarded by the emptiness test, the row keys the
    feature vector reads are always written, the scaler is never given an
    empty column, and failures of scoring and of the socket are caught. *)
Theorem X4_cycles_never_raise (env : environment) (timestamp : Q) (w : world) :
  (exists tr w', aggregate_iteration env timestamp w = (tr, Ok w')) /\
  (exists row pd buf', locked_section timestamp (data_buffer w) = Ok (row, pd, buf')) /\
  (forall steps, exists tr w', run steps w = (tr, Ok w')).
Proof.
  split; [apply aggregate_iteration_ok |]. split; [| intros steps; apply run_ok].
  destruct (locked_section_spec timestamp (data_buffer w))
    as (row & bva_scaled & buf' & Hlocked & _).
  eauto.
Qed.

Lemma run_counts (steps : list step) (w w' : world) (tr : list event) :
  run steps w = (tr, Ok w') ->
  length (csv_file w') = length (csv_file w) + ticks steps /\
  exists n, n <= ticks steps /\
    length (cogload_file w') = length (cogload_file w) + n /\
    length (prediction_file w') = length (prediction_file w) + n.
Proof.
  revert w tr. induction steps as [| s steps IH]; intros w tr Hrun.
  - simpl in Hrun. injection Hrun as _ <-. simpl.
    split; [lia |]. exists 0. lia.
  - destruct (run_step_ok s w) as (tr1 & w1 & Hstep).
    rewrite (run_cons s steps w w1 tr1 Hstep) in Hrun.
    destruct (run steps w1) as [tr2 r] eqn:Hrest.
    simpl in Hrun. injection Hrun as _ ->.
    destruct (IH w1 tr2 Hrest) as (Hcsv & n & Hn & Hcog & Hprd).
    destruct s as [address args | env timestamp]; simpl in Hstep.
    + injection Hstep as _ <-.
      destruct (receive_fields address args w) as (_ & Hc & Hg & Hp).
      rewrite Hc in Hcsv. rewrite Hg in Hcog. rewrite Hp in Hprd.
      simpl. split; [exact Hcsv |]. exists n. auto.
    + destruct (cycle_summary env timestamp w)
        as (tr0 & w0 & row & Hiter & Hc & _ & _ & _ & _ & _ & Hg & Hp & _).
      rewrite Hstep in Hiter. injection Hiter as _ <-.
      rewrite Hc, length_app in Hcsv. rewrite Hg in Hcog. rewrite Hp in Hprd.
      simpl in *. split; [lia |].
      exists (n + (if full_vector w then 1 else 0)).
      destruct (full_vector w); lia.
Qed.

(** X5: after [initialize_files], whatever the files held before, the main
    data file has exactly one row per cycle, and the feature file and the
    prediction file have the same number of rows, at most one per cycle. *)
Theorem X5_file_row_counts (steps : list step) (w w' : world) (tr : list event) :
  run steps (initialize_files w) = (tr, Ok w') ->
  length (csv_file w') = ticks steps /\
  length (cogload_file w') = length (prediction_file w') /\
  length (prediction_file w') <= ticks steps.
Proof.
  intros Hrun.
  destruct (run_counts steps (initialize_files w) w' tr Hrun)
    as (Hcsv & n & Hn & Hcog & Hprd).
  simpl in *. lia.
Qed.

Lemma X5_witness :
  exists tr w',
    run [Recv "/EmotiBit/0/EDA" [1%Q];
         Tick (stub_env unloaded_ml working_socket) 2%Q;
         Tick (stub_env unloaded_ml working_socket) 4%Q]
        (initialize_files empty_world) = (tr, Ok w') /\
    length (csv_file w') = 2 /\
    length (cogload_file w') = length (prediction_file w') /\
    length (prediction_file w') <= 2.
Proof.
  destruct (run_ok [Recv "/EmotiBit/0/EDA" [1%Q];
                    Tick (stub_env unloaded_ml working_socket) 2%Q;
                    Tick (stub_env unloaded_ml working_socket) 4%Q]
                   (initialize_files empty_world))
    as (tr & w' & Hrun).
  exists tr, w'. split; [exact Hrun |].
  exact (X5_file_row_counts _ empty_world _ _ Hrun).
Defined.

(** ** The aggregated row *)

Lemma fieldnames_cases (k : string) :
  k ∈ fieldnames <-> k = "timestamp" \/ k = "BVA" \/ k ∈ tracked_channels.
Proof.
  rewrite tracked_channels_elem.
  change fieldnames with ("timestamp" :: tl fieldnames).
  rewrite elem_of_cons.
  assert (Hbva : "BVA" ∈ tl fieldnames)
    by (apply (bool_decide_unpack _); vm_compute; reflexivity).
  destruct (decide (k = "BVA")) as [-> | Hne]; tauto.
Qed.

(** X6: the row a cycle appends to the main data file has exactly the 19
    field names as its keys: under [timestamp] the timestamp, under [BVA]
    the raw BVA of the [PPG:IR] samples, and under each of the 17 tracked
    channels the mean [sum(d) / len(d)] of that channel's samples, or the
    missing marker when it has none; channels outside the field names never
    reach the row. *)
Theorem X6_row_keys_are_fieldnames (env : environment) (timestamp : Q) (w : world) :
  exists tr w' (row : gmap string (option Q)),
    aggregate_iteration env timestamp w = (tr, Ok w') /\
    csv_file w' = csv_file w ++ [row] /\
    (forall k, is_Some (row !! k) <-> k ∈ fieldnames) /\
    row !! "timestamp" = Some (Some timestamp) /\
    row !! "BVA" = Some (compute_bva (samples (data_buffer w) "PPG:IR")) /\
    (forall k, k ∈ tracked_channels ->
               row !! k = Some (channel_mean (samples (data_buffer w) k))) /\
    (forall k, k ∈ fieldnames <->
               k = "timestamp" \/ k = "BVA" \/ k ∈ tracked_channels).
Proof.
  destruct (cycle_summary env timestamp w)
    as (tr & w' & row & Hiter & Hcsv & Hts & Hbva & Htracked & Hother & _).
  exists tr, w', row.
  split; [exact Hiter |]. split; [exact Hcsv |].
  split; [| split; [exact Hts | split; [exact Hbva |]]].
  - intros k. split.
    + intros Hsome. destruct (decide (k ∈ fieldnames)) as [| Hnot]; [assumption |].
      rewrite (Hother k Hnot) in Hsome. destruct Hsome as [? Habs]. discriminate Habs.
    + intros Hin. apply fieldnames_cases in Hin as [-> | [-> | Hin]].
      * rewrite Hts. eauto.
      * rewrite Hbva. eauto.
      * rewrite (Htracked k Hin). eauto.
  - split; [exact Htracked | apply fieldnames_cases].
Qed.

Lemma X6_witness :
  "HR" ∈ tracked_channels /\ "EDA" ∈ tracked_channels /\
  exists tr w' (row : gmap string (option Q)),
    aggregate_iteration (stub_env unloaded_ml working_socket) 2
      (receive_all cycle_messages empty_world) = (tr, Ok w') /\
    row !! "HR" = Some None /\
    row !! "EDA" = Some (Some (1 # 2)%Q).
Proof.
  assert (Hhr : "HR" ∈ tracked_channels)
    by (apply (bool_decide_unpack _); vm_compute; reflexivity).
  split; [exact Hhr |]. split; [exact EDA_tracked |].
  destruct (X6_row_keys_are_fieldnames (stub_env unloaded_ml working_socket) 2
              (receive_all cycle_messages empty_world))
    as (tr & w' & row & Hiter & _ & _ & _ & _ & Htracked & _).
  exists tr, w', row. split; [exact Hiter |]. split.
  - rewrite (Htracked "HR" Hhr). vm_compute. reflexivity.
  - rewrite (Htracked "EDA" EDA_tracked). vm_compute. reflexivity.
Defined.

(** X7: a cycle empties every tracked channel and leaves every other
    channel as it was, so no sample is averaged twice: a second cycle right
    after the first writes a row with the missing marker for the BVA and for
    every tracked channel, and nothing else: no feature row, no prediction
    row, no alert, no change of the alert history. *)
Theorem X7_snapshot_and_clear (env env2 : environment) (timestamp timestamp2 : Q)
    (w w1 : world) (tr : list event) :
  aggregate_iteration env timestamp w = (tr, Ok w1) ->
  (forall k, samples (data_buffer w1) k =
             if decide (k ∈ tracked_channels) then []
             else samples (data_buffer w) k) /\
  exists w2 (row2 : gmap string (option Q)),
    aggregate_iteration env2 timestamp2 w1 = ([], Ok w2) /\
    csv_file w2 = csv_file w1 ++ [row2] /\
    row2 !! "BVA" = Some None /\
    (forall k, k ∈ tracked_channels -> row2 !! k = Some None) /\
    cogload_file w2 = cogload_file w1 /\
    prediction_file w2 = prediction_file w1 /\
    last_predictions w2 = last_predictions w1.
Proof.
  intros Hiter.
  destruct (cycle_summary env timestamp w)
    as (tr0 & w0 & row & Hiter0 & _ & _ & _ & _ & _ & Hbuf & _).
  rewrite Hiter in Hiter0. injection Hiter0 as _ <-.
  split; [exact Hbuf |].
  assert (Hempty : forall k, k ∈ tracked_channels -> samples (data_buffer w1) k = []).
  { intros k Hk. rewrite Hbuf. case_decide; [reflexivity | contradiction]. }
  assert (Hfull : full_vector w1 = false).
  { unfold full_vector. rewrite (Hempty "EDA" EDA_tracked). reflexivity. }
  destruct (cycle_summary env2 timestamp2 w1)
    as (tr2 & w2 & row2 & Hiter2 & Hcsv2 & _ & Hbva2 & Htracked2 & _ & _ & _ & _
        & Hquiet & _).
  destruct (Hquiet Hfull) as (-> & Hh & Hg & Hp).
  exists w2, row2. split; [exact Hiter2 |]. split; [exact Hcsv2 |].
  split; [rewrite Hbva2, (Hempty "PPG:IR" PPG_IR_tracked); reflexivity |].
  split; [| repeat split; assumption].
  intros k Hk. rewrite (Htracked2 k Hk), (Hempty k Hk). reflexivity.
Qed.

Lemma X7_witness :
  samples (data_buffer (receive_all cycle_messages empty_world)) "EDA" = [(1 # 2)%Q] /\
  exists tr w1,
    aggregate_iteration (stub_env unloaded_ml working_socket) 2
      (receive_all cycle_messages empty_world) = (tr, Ok w1) /\
    samples (data_buffer w1) "EDA" = [] /\
    exists w2 (row2 : gmap string (option Q)),
      aggregate_iteration (stub_env unloaded_ml working_socket) 4 w1
        = ([], Ok w2) /\
      row2 !! "BVA" = Some None /\
      row2 !! "EDA" = Some None /\
      prediction_file w2 = prediction_file w1.
Proof.
  split; [vm_compute; reflexivity |].
  destruct (aggregate_iteration_ok (stub_env unloaded_ml working_socket) 2
              (receive_all cycle_messages empty_world))
    as (tr & w1 & Hiter).
  exists tr, w1. split; [exact Hiter |].
  destruct (X7_snapshot_and_clear
              (stub_env unloaded_ml working_socket)
              (stub_env unloaded_ml working_socket) 2 4
              (receive_all cycle_messages empty_world) w1 tr Hiter)
    as (Hbuf & w2 & row2 & H1 & _ & H2 & Hrow & _ & H3 & _).
  split.
  - rewrite (Hbuf "EDA"). case_decide as Hk; [reflexivity |].
    exfalso. exact (Hk EDA_tracked).
  - exists w2, row2. split; [exact H1 |]. split; [exact H2 |].
    split; [exact (Hrow "EDA" EDA_tracked) | exact H3].
Defined.

(** ** The alert history, continued *)

Lemma deque_append_last {A} (n : nat) (d : list A) (v : A) :
  0 < n -> exists d', deque_append n d v = d' ++ [v] /\ d' `suffix_of` d.
Proof.
  intros Hn. unfold deque_append.
  destruct (Nat.ltb_spec n (length (d ++ [v]))) as [Hlt | Hge].
  - rewrite length_app in Hlt. simpl in Hlt.
    destruct d as [| a d]; [simpl in Hlt; lia |].
    exists d. split; [reflexivity |]. apply suffix_cons_r. reflexivity.
  - exists d. split; reflexivity.
Qed.

Lemma update_history_cases (sock : socket) (h : list string) (l : string) :
  (alert_fires h l = true /\
   update_history sock h l =
     ([SendTo (encode (String.append "ALERT|" (upper l))) UNITY_IP UNITY_PORT;
       Print (match sock (encode (String.append "ALERT|" (upper l))) with
              | Ok _ => SentUnityAlert (String.append "ALERT|" (upper l))
              | Raise e => FailedUnityAlert e
              end)], Ok [])) \/
  (alert_fires h l = false /\
   update_history sock h l = ([], Ok (deque_append 10 h l))).
Proof.
  destruct (alert_fires h l) eqn:Hfire.
  - left. split; [reflexivity |]. apply update_history_fires. exact Hfire.
  - right. split; [reflexivity |]. apply update_history_quiet. exact Hfire.
Qed.

(** What a stored history looks like: at most ten entries, and never ten
    identical ones. *)
Lemma update_history_stored (sock : socket) (h h' : list string) (l : string)
    (tr : list event) :
  length h <= 10 ->
  update_history sock h l = (tr, Ok h') ->
  length h' <= 10 /\
  ~ (length h' = 10 /\ exists x, forall y, y ∈ h' -> y = x).
Proof.
  intros Hlen Hupd.
  destruct (update_history_cases sock h l) as [[Hfire Heq] | [Hfire Heq]];
    rewrite Heq in Hupd; injection Hupd as _ <-.
  - split; [simpl; lia |]. intros [Habs _]. discriminate Habs.
  - split; [apply deque_append_bound; exact Hlen |].
    intros [Hten [x Hall]].
    assert (Htrue : alert_fires h l = true).
    { apply alert_fires_spec. split; [lia |].
      destruct (deque_append_last 10 h l ltac:(lia)) as (d' & Hd & _).
      intros y Hy. rewrite (Hall y Hy). symmetry. apply Hall.
      rewrite Hd. apply elem_of_app. right. apply list_elem_of_singleton. reflexivity. }
    congruence.
Qed.

(** Eleven cycles with every feature present and the models missing: one
    alert at the tenth, and the eleventh label starts a new history. *)
Lemma eleven_cycles_outcome :
  exists tr w',
    run (eleven_cycles (stub_env unloaded_ml working_socket)) empty_world
      = (tr, Ok w') /\
    datagrams tr = [encode "ALERT|MODEL_NOT_LOADED"] /\
    last_predictions w' = ["MODEL_NOT_LOADED"] /\
    length (prediction_file w') = 11.
Proof.
  destruct (run_ok (eleven_cycles (stub_env unloaded_ml working_socket)) empty_world)
    as (tr & w' & Hrun).
  assert (Hout : outcome (run (eleven_cycles (stub_env unloaded_ml working_socket))
                              empty_world)
                 = ([encode "ALERT|MODEL_NOT_LOADED"], ["MODEL_NOT_LOADED"], 11))
    by (vm_compute; reflexivity).
  rewrite Hrun in Hout. unfold outcome in Hout.
  injection Hout as Hd Hh Hp.
  exists tr, w'. repeat split; assumption.
Qed.

(** X8: along every run of the process that starts with at most ten
    entries in the alert history, the history keeps at most ten entries and
    never holds ten identical labels once a cycle has updated it: ten
    identical entries are always consumed by the alert that clears them. *)
Theorem X8_history_invariant (steps : list step) (w w' : world) (tr : list event) :
  length (last_predictions w) <= 10 /\
  ~ (length (last_predictions w) = 10 /\
     exists x, forall y, y ∈ last_predictions w -> y = x) ->
  run steps w = (tr, Ok w') ->
  length (last_predictions w') <= 10 /\
  ~ (length (last_predictions w') = 10 /\
     exists x, forall y, y ∈ last_predictions w' -> y = x).
Proof.
  apply (run_preserves
           (fun w => length (last_predictions w) <= 10 /\
                     ~ (length (last_predictions w) = 10 /\
                        exists x, forall y, y ∈ last_predictions w -> y = x))).
  - intros address args w0 HP. rewrite receive_last_predictions. exact HP.
  - intros env timestamp w0 tr0 w1 [Hlen Hmixed] Hiter.
    destruct (full_vector w0) eqn:Hfull.
    + destruct (aggregate_iteration_full env timestamp w0 Hfull)
        as (row & buf' & eda & temp & v & s & tr1 & label & tr2 & h
            & _ & _ & _ & _ & _ & _ & Hupdate & Heq).
      rewrite Hiter in Heq. injection Heq as _ ->. cbn [last_predictions].
      apply (update_history_stored (unity_socket env) (last_predictions w0) h label tr2);
        assumption.
    + destruct (cycle_summary env timestamp w0)
        as (tr1 & w2 & row & Hiter' & _ & _ & _ & _ & _ & _ & _ & _ & Hquiet & _).
      rewrite Hiter in Hiter'. injection Hiter' as _ <-.
      destruct (Hquiet Hfull) as (_ & -> & _). split; assumption.
Qed.

Lemma X8_witness :
  exists tr w',
    run (eleven_cycles (stub_env unloaded_ml working_socket)) empty_world
      = (tr, Ok w') /\
    datagrams tr = [encode "ALERT|MODEL_NOT_LOADED"] /\
    last_predictions w' = ["MODEL_NOT_LOADED"] /\
    length (last_predictions w') <= 10 /\
    ~ (length (last_predictions w') = 10 /\
       exists x, forall y, y ∈ last_predictions w' -> y = x).
Proof.
  destruct eleven_cycles_outcome as (tr & w' & Hrun & Hd & Hh & _).
  exists tr, w'. split; [exact Hrun |]. split; [exact Hd |]. split; [exact Hh |].
  apply (X8_history_invariant
           (eleven_cycles (stub_env unloaded_ml working_socket)) empty_world w' tr);
    [| exact Hrun].
  split; [simpl; lia |]. intros [Habs _]. discriminate Habs.
Defined.

Lemma update_history_suffix (sock : socket) (h h' : list string) (l : string)
    (tr : list event) :
  update_history sock h l = (tr, Ok h') -> h' `suffix_of` h ++ [l].
Proof.
  intros Hupd.
  destruct (update_history_cases sock h l) as [[_ Heq] | [_ Heq]];
    rewrite Heq in Hupd; injection Hupd as _ <-.
  - apply suffix_nil.
  - destruct (deque_append_last 10 h l ltac:(lia)) as (d' & -> & Hsuf).
    apply suffix_app. exact Hsuf.
Qed.

(** The history is always made of the most recent labels. *)
Lemma feed_suffix (sock : socket) (labels h0 h : list string) (tr : list event) :
  feed sock labels h0 = (tr, Ok h) -> h `suffix_of` h0 ++ labels.
Proof.
  revert h0 tr. induction labels as [| l labels IH]; intros h0 tr Hfeed.
  - simpl in Hfeed. injection Hfeed as _ <-. rewrite app_nil_r. reflexivity.
  - simpl in Hfeed.
    destruct (update_history_ok sock h0 l) as (tr1 & h1 & Hupd).
    rewrite Hupd in Hfeed. unfold bind in Hfeed.
    destruct (feed sock labels h1) as [tr2 r] eqn:Hrest.
    injection Hfeed as _ ->.
    pose proof (IH h1 tr2 Hrest) as Hsuf.
    pose proof (update_history_suffix sock h0 h1 l tr1 Hupd) as Hsuf1.
    etransitivity; [exact Hsuf |].
    replace (h0 ++ l :: labels) with ((h0 ++ [l]) ++ labels)
      by (rewrite <- app_assoc; reflexivity).
    apply suffix_app. exact Hsuf1.
Qed.

Lemma all_equal_replicate (d : list string) (l : string) :
  (forall y, y ∈ d -> y = l) -> d = replicate (length d) l.
Proof.
  intros Hall. symmetry. apply replicate_as_elem_of. split; [reflexivity | exact Hall].
Qed.

(** X9: an alert is sent for a label only when the nine labels fed before
    it, since the history was last empty, were that same label: the alert
    always stands for ten identical predictions in a row, and it carries
    their label. *)
Theorem X9_alert_needs_ten_identical (sock : socket) (pre h : list string)
    (l : string) (tr0 : list event) :
  feed sock pre [] = (tr0, Ok h) ->
  datagrams (fst (update_history sock h l)) <> [] ->
  (exists older, pre = older ++ replicate 9 l) /\
  datagrams (fst (update_history sock h l))
    = [encode (String.append "ALERT|" (upper l))] /\
  snd (update_history sock h l) = Ok [].
Proof.
  intros Hfeed Hsent.
  destruct (update_history_cases sock h l) as [[Hfire Heq] | [_ Heq]];
    rewrite Heq in *; [| contradiction Hsent; reflexivity].
  split; [| split; reflexivity].
  apply alert_fires_spec in Hfire as [Hten Hall].
  destruct (deque_append_last 10 h l ltac:(lia)) as (d' & Hd & Hsuf).
  rewrite Hd in Hten, Hall. rewrite length_app in Hten. simpl in Hten.
  assert (Hd' : d' = replicate (length d') l).
  { apply all_equal_replicate. intros y Hy. apply Hall.
    apply elem_of_app. left. exact Hy. }
  pose proof (feed_suffix sock pre [] h tr0 Hfeed) as Hpre. simpl in Hpre.
  destruct Hsuf as [k1 ->]. destruct Hpre as [k2 ->].
  exists (k2 ++ k1 ++ replicate (length d' - 9) l).
  rewrite Hd' at 1.
  replace (length d') with ((length d' - 9) + 9) at 1 by lia.
  rewrite replicate_add, <- !app_assoc. reflexivity.
Qed.

Lemma X9_witness :
  feed working_socket ("low" :: replicate 9 "high") []
    = ([], Ok ("low" :: replicate 9 "high")) /\
  exists older, "low" :: replicate 9 "high" = older ++ replicate 9 "high".
Proof.
  assert (H : feed working_socket ("low" :: replicate 9 "high") []
              = ([], Ok ("low" :: replicate 9 "high")))
    by (vm_compute; reflexivity).
  split; [exact H |].
  apply (proj1 (X9_alert_needs_ten_identical working_socket
                  ("low" :: replicate 9 "high") _ "high" _ H
                  ltac:(vm_compute; discriminate))).
Defined.

Lemma deque_append_run (h k : list string) (m : nat) (l : string) :
  h = k ++ replicate m l -> length h <= 10 -> m <= 9 ->
  exists k', deque_append 10 h l = k' ++ replicate (S m) l.
Proof.
  intros -> Hlen Hm. rewrite length_app, length_replicate in Hlen.
  destruct (Nat.eq_dec (length (k ++ replicate m l)) 10) as [Hfull | Hnot].
  - rewrite deque_append_full by (assumption || lia).
    rewrite length_app, length_replicate in Hfull.
    destruct k as [| a k]; [simpl in Hfull; lia |].
    exists k. simpl. rewrite <- app_assoc, <- replicate_S_end. reflexivity.
  - rewrite deque_append_short
      by (rewrite length_app, length_replicate in *; lia).
    exists k. rewrite <- app_assoc, <- replicate_S_end. reflexivity.
Qed.

Lemma ten_run (sock : socket) (l : string) (n : nat) :
  forall h k,
    1 <= n <= 10 -> length h <= 10 -> h = k ++ replicate (10 - n) l ->
    exists tr h',
      feed sock (replicate n l) h = (tr, Ok h') /\
      datagrams tr = [encode (String.append "ALERT|" (upper l))].
Proof.
  induction n as [| n IH]; intros h k Hn Hlen Hh; [lia |].
  cbn [replicate feed].
  destruct (update_history_cases sock h l) as [[_ Heq] | [Hquiet Heq]]; rewrite Heq.
  - unfold bind. rewrite feed_short by (rewrite length_replicate; simpl; lia).
    eexists _, _. split; reflexivity.
  - destruct (deque_append_run h k (10 - S n) l Hh Hlen ltac:(lia)) as (k' & Hk').
    replace (S (10 - S n)) with (10 - n) in Hk' by lia.
    pose proof (deque_append_bound 10 h l Hlen) as Hlen'.
    destruct (Nat.eq_dec n 0) as [-> | Hpos].
    + exfalso. replace (10 - 0) with 10 in Hk' by lia. rewrite Hk' in Hlen'.
      rewrite length_app, length_replicate in Hlen'.
      assert (k' = []) as -> by (destruct k'; [reflexivity | simpl in Hlen'; lia]).
      assert (Htrue : alert_fires h l = true).
      { apply alert_fires_spec. rewrite Hk', app_nil_l.
        split; [rewrite length_replicate; lia |].
        intros y Hy. apply elem_of_replicate in Hy. tauto. }
      congruence.
    + destruct (IH (deque_append 10 h l) k' ltac:(lia) Hlen' Hk')
        as (tr & h' & Hfeed & Hdata).
      unfold bind. rewrite Hfeed. eexists _, _. split; [reflexivity | exact Hdata].
Qed.

(** X10: whatever the alert history holds (within its ten entries), ten
    identical labels in a row send exactly one alert, carrying that label:
    a sustained label is never missed and never reported twice. *)
Theorem X10_ten_in_a_row_alert_once (sock : socket) (h : list string) (l : string) :
  length h <= 10 ->
  exists tr h',
    feed sock (replicate 10 l) h = (tr, Ok h') /\
    datagrams tr = [encode (String.append "ALERT|" (upper l))].
Proof.
  intros Hlen. apply (ten_run sock l 10 h h); [lia | exact Hlen |].
  simpl. rewrite app_nil_r. reflexivity.
Qed.

Lemma X10_witness :
  length ["low"; "high"; "low"; "high"; "high"; "high"] <= 10 /\
  exists tr h',
    feed broken_socket (replicate 10 "high")
      ["low"; "high"; "low"; "high"; "high"; "high"] = (tr, Ok h') /\
    datagrams tr = [encode (String.append "ALERT|" (upper "high"))].
Proof.
  split; [simpl; lia |].
  apply (X10_ten_in_a_row_alert_once broken_socket
           ["low"; "high"; "low"; "high"; "high"; "high"] "high").
  simpl; lia.
Defined.

Lemma predict_cognitive_load_quiet (pandas0 : result unit) (ml0 : ml_components)
    (eda temp bva : Q) :
  datagrams (fst (predict_cognitive_load pandas0 ml0 eda temp bva)) = [].
Proof.
  unfold predict_cognitive_load, try_except.
  destruct (clf ml0), (std_scaler ml0), (bva_scaler ml0), (label_encoder ml0);
    try reflexivity.
  unfold scoring, bind, call, emit, ret.
  repeat match goal with
         | |- context [match ?r with Ok _ => _ | Raise _ => _ end] => destruct r
         end; reflexivity.
Qed.

Lemma deque_append_grow {A} (n : nat) (d : list A) (v : A) :
  length (deque_append n d v) <= length d + 1.
Proof.
  unfold deque_append.
  destruct (n <? length (d ++ [v])).
  - destruct d as [| a d]; simpl; [lia |]. rewrite length_app. simpl. lia.
  - rewrite length_app. simpl. lia.
Qed.

Lemma update_history_rate (sock : socket) (h h' : list string) (l : string)
    (tr : list event) :
  update_history sock h l = (tr, Ok h') ->
  10 * length (datagrams tr) + length h' <= length h + 1.
Proof.
  intros Hupd.
  destruct (update_history_cases sock h l) as [[Hfire Heq] | [_ Heq]];
    rewrite Heq in Hupd; injection Hupd as <- <-.
  - apply alert_fires_spec in Hfire as [Hten _].
    pose proof (deque_append_grow 10 h l). simpl. lia.
  - pose proof (deque_append_grow 10 h l). simpl. lia.
Qed.

Lemma cycle_rate (env : environment) (timestamp : Q) (w w' : world) (tr : list event) :
  aggregate_iteration env timestamp w = (tr, Ok w') ->
  10 * length (datagrams tr) + length (last_predictions w')
    + length (prediction_file w)
  <= length (last_predictions w) + length (prediction_file w').
Proof.
  intros Hiter. destruct (full_vector w) eqn:Hfull.
  - destruct (aggregate_iteration_full env timestamp w Hfull)
      as (row & buf' & eda & temp & v & s & tr1 & label & tr2 & h
          & _ & _ & _ & _ & _ & Hpredict & Hupdate & Heq).
    rewrite Hiter in Heq. injection Heq as -> ->. cbn.
    rewrite datagrams_app, length_app. cbn [datagrams].
    pose proof (predict_cognitive_load_quiet (pandas env) (ml env) eda temp s) as Hq.
    rewrite Hpredict in Hq. simpl in Hq. rewrite Hq.
    pose proof (update_history_rate _ _ _ _ _ Hupdate). rewrite length_app. simpl. lia.
  - destruct (cycle_summary env timestamp w)
      as (tr1 & w2 & row & Hiter' & _ & _ & _ & _ & _ & _ & _ & _ & Hquiet & _).
    rewrite Hiter in Hiter'. injection Hiter' as <- <-.
    destruct (Hquiet Hfull) as (-> & -> & _ & ->). simpl. lia.
Qed.

(** X11: alerts are rate-limited by the predictions: along any run, ten
    times the number of alerts sent, plus the length of the history at the
    end, is at most the length of the history at the start plus the number
    of prediction rows written; from an empty history there is at most one
    alert per ten predictions. *)
Theorem X11_alert_rate (steps : list step) (w w' : world) (tr : list event) :
  run steps w = (tr, Ok w') ->
  10 * length (datagrams tr) + length (last_predictions w')
    + length (prediction_file w)
  <= length (last_predictions w) + length (prediction_file w').
Proof.
  revert w tr. induction steps as [| s steps IH]; intros w tr Hrun.
  - simpl in Hrun. injection Hrun as <- <-. simpl. lia.
  - destruct (run_step_ok s w) as (tr1 & w1 & Hstep).
    rewrite (run_cons s steps w w1 tr1 Hstep) in Hrun.
    destruct (run steps w1) as [tr2 r] eqn:Hrest.
    simpl in Hrun. injection Hrun as <- ->.
    pose proof (IH w1 tr2 Hrest) as Hrate.
    rewrite datagrams_app, length_app.
    destruct s as [address args | env timestamp]; simpl in Hstep.
    + injection Hstep as <- <-.
      destruct (receive_fields address args w) as (Hh & _ & _ & Hp).
      rewrite Hh, Hp in Hrate. simpl. lia.
    + pose proof (cycle_rate env timestamp w w1 tr1 Hstep). lia.
Qed.

Lemma X11_witness :
  exists tr w',
    run (eleven_cycles (stub_env unloaded_ml working_socket)) empty_world
      = (tr, Ok w') /\
    length (datagrams tr) = 1 /\
    length (last_predictions w') = 1 /\
    length (prediction_file w') = 11 /\
    10 * length (datagrams tr) + length (last_predictions w')
      + length (prediction_file empty_world)
    <= length (last_predictions empty_world) + length (prediction_file w').
Proof.
  destruct eleven_cycles_outcome as (tr & w' & Hrun & Hd & Hh & Hp).
  exists tr, w'. split; [exact Hrun |].
  split; [rewrite Hd; reflexivity |].
  split; [rewrite Hh; reflexivity |].
  split; [exact Hp |].
  exact (X11_alert_rate
           (eleven_cycles (stub_env unloaded_ml working_socket)) empty_world w' tr Hrun).
Defined.

(** ** Loading and scoring *)

(** X12: loading is all or nothing: the four globals are all set, to the
    four loaded objects, exactly when the four artifacts load; if any of
    them fails, all four globals are [None], even those whose artifact
    loaded. *)
Theorem X12_load_all_or_nothing (a : artifacts) :
  (forall c s b l,
     random_forest_model_pkl a = Ok c -> standard_scaler_pkl a = Ok s ->
     bva_scaler_pkl a = Ok b -> label_encoder_pkl a = Ok l ->
     load_ml_components a =
       {| clf := Some c; std_scaler := Some s;
          bva_scaler := Some b; label_encoder := Some l |}) /\
  (none_in (load_ml_components a) = true ->
   load_ml_components a =
     {| clf := None; std_scaler := None;
        bva_scaler := None; label_encoder := None |}) /\
  (none_in (load_ml_components a) = false <->
   exists c s b l,
     random_forest_model_pkl a = Ok c /\ standard_scaler_pkl a = Ok s /\
     bva_scaler_pkl a = Ok b /\ label_encoder_pkl a = Ok l).
Proof.
  split; [intros c s b l; apply load_ml_components_loaded |].
  unfold load_ml_components, bind_r, none_in.
  destruct (random_forest_model_pkl a) as [c | e1],
           (standard_scaler_pkl a) as [s | e2],
           (bva_scaler_pkl a) as [b | e3],
           (label_encoder_pkl a) as [l | e4]; simpl;
    (split; [first [reflexivity | discriminate] |]);
    (split; [first [discriminate | intros _; eauto 10]
            | first [reflexivity
                    | intros (c' & s' & b' & l' & H1 & H2 & H3 & H4);
                      discriminate]]).
Qed.

Lemma X12_witness :
  load_ml_components
    {| random_forest_model_pkl := Ok constant_classifier;
       standard_scaler_pkl := Raise (OtherException "corrupt");
       bva_scaler_pkl := Ok {| bva_transform := fun b => Ok b |};
       label_encoder_pkl := Ok {| inverse_transform := fun _ => Ok "high" |} |}
  = {| clf := None; std_scaler := None; bva_scaler := None; label_encoder := None |}.
Proof.
  apply (proj1 (proj2 (X12_load_all_or_nothing _))). reflexivity.
Defined.

(** X13: with the four collaborators loaded, the adapter runs the steps
    pandas import, BVA scaler on the BVA, standard scaler on (EDA, Temp,
    scaled BVA), classifier on the scaled features, label encoder on the
    class number, each once and in that order; the first step that raises
    ends the scoring, no later collaborator is called, the failure is
    printed and the result is [PREDICTION_ERROR]; when every step returns,
    the result is the decoded label and nothing is printed. *)
Theorem X13_scoring_order (pandas0 : result unit) (ml0 : ml_components)
    (c : classifier) (s : standard_scaler) (b : bva_scaler_t) (l : label_encoder_t)
    (eda temp bva : Q) :
  clf ml0 = Some c -> std_scaler ml0 = Some s ->
  bva_scaler ml0 = Some b -> label_encoder ml0 = Some l ->
  (forall e, pandas0 = Raise e ->
     predict_cognitive_load pandas0 ml0 eda temp bva =
       ( [ Scoring ImportPandas; Print (PredictionFailed e) ],
         Ok "PREDICTION_ERROR" )) /\
  (forall u e, pandas0 = Ok u -> bva_transform b bva = Raise e ->
     predict_cognitive_load pandas0 ml0 eda temp bva =
       ( [ Scoring ImportPandas; Scoring (BvaTransform bva);
           Print (PredictionFailed e) ],
         Ok "PREDICTION_ERROR" )) /\
  (forall u bva' e, pandas0 = Ok u -> bva_transform b bva = Ok bva' ->
     std_transform s (eda, temp, bva') = Raise e ->
     predict_cognitive_load pandas0 ml0 eda temp bva =
       ( [ Scoring ImportPandas; Scoring (BvaTransform bva);
           Scoring (StdTransform (eda, temp, bva'));
           Print (PredictionFailed e) ],
         Ok "PREDICTION_ERROR" )) /\
  (forall u bva' fs e, pandas0 = Ok u -> bva_transform b bva = Ok bva' ->
     std_transform s (eda, temp, bva') = Ok fs -> predict c fs = Raise e ->
     predict_cognitive_load pandas0 ml0 eda temp bva =
       ( [ Scoring ImportPandas; Scoring (BvaTransform bva);
           Scoring (StdTransform (eda, temp, bva')); Scoring (ClfPredict fs);
           Print (PredictionFailed e) ],
         Ok "PREDICTION_ERROR" )) /\
  (forall u bva' fs n e, pandas0 = Ok u -> bva_transform b bva = Ok bva' ->
     std_transform s (eda, temp, bva') = Ok fs -> predict c fs = Ok n ->
     inverse_transform l n = Raise e ->
     predict_cognitive_load pandas0 ml0 eda temp bva =
       ( [ Scoring ImportPandas; Scoring (BvaTransform bva);
           Scoring (StdTransform (eda, temp, bva')); Scoring (ClfPredict fs);
           Scoring (InverseTransform n); Print (PredictionFailed e) ],
         Ok "PREDICTION_ERROR" )) /\
  (forall u bva' fs n label, pandas0 = Ok u -> bva_transform b bva = Ok bva' ->
     std_transform s (eda, temp, bva') = Ok fs -> predict c fs = Ok n ->
     inverse_transform l n = Ok label ->
     predict_cognitive_load pandas0 ml0 eda temp bva =
       ( [ Scoring ImportPandas; Scoring (BvaTransform bva);
           Scoring (StdTransform (eda, temp, bva')); Scoring (ClfPredict fs);
           Scoring (InverseTransform n) ],
         Ok label )).
Proof.
  intros Hc Hs Hb Hl.
  rewrite (predict_cognitive_load_loaded pandas0 ml0 c s b l) by assumption.
  unfold scoring, bind, call.
  repeat split.
  - intros e ->. reflexivity.
  - intros u e -> ->. reflexivity.
  - intros u bva' e -> -> ->. reflexivity.
  - intros u bva' fs e -> -> -> ->. reflexivity.
  - intros u bva' fs n e -> -> -> -> ->. reflexivity.
  - intros u bva' fs n label -> -> -> -> ->. reflexivity.
Qed.

Lemma X13_witness :
  predict_cognitive_load (Ok tt) (stub_ml failing_classifier) (1 # 2) 30 0 =
    ( [ Scoring ImportPandas; Scoring (BvaTransform 0);
        Scoring (StdTransform (1 # 2, 30, 0)%Q);
        Scoring (ClfPredict (1 # 2, 30, 0)%Q);
        Print (PredictionFailed (OtherException "shape mismatch")) ],
      Ok "PREDICTION_ERROR" ) /\
  predict_cognitive_load (Ok tt) (stub_ml constant_classifier) (1 # 2) 30 0 =
    ( [ Scoring ImportPandas; Scoring (BvaTransform 0);
        Scoring (StdTransform (1 # 2, 30, 0)%Q);
        Scoring (ClfPredict (1 # 2, 30, 0)%Q); Scoring (InverseTransform 1) ],
      Ok "high" ).
Proof.
  split.
  - destruct (X13_scoring_order (Ok tt) (stub_ml failing_classifier)
                failing_classifier
                {| std_transform := fun f => Ok f |}
                {| bva_transform := fun b => Ok b |}
                {| inverse_transform := fun _ => Ok "high" |}
                (1 # 2) 30 0 eq_refl eq_refl eq_refl eq_refl)
      as (_ & _ & _ & H & _).
    apply (H tt 0%Q (1 # 2, 30, 0)%Q (OtherException "shape mismatch"));
      reflexivity.
  - destruct (X13_scoring_order (Ok tt) (stub_ml constant_classifier)
                constant_classifier
                {| std_transform := fun f => Ok f |}
                {| bva_transform := fun b => Ok b |}
                {| inverse_transform := fun _ => Ok "high" |}
                (1 # 2) 30 0 eq_refl eq_refl eq_refl eq_refl)
      as (_ & _ & _ & _ & _ & H).
    apply (H tt 0%Q (1 # 2, 30, 0)%Q 1%Z "high"); reflexivity.
Defined.

(** ** Blood volume amplitude, continued *)

Lemma compute_bva_value (x : list Q) (v : Q) :
  compute_bva x = Some v ->
  10 <= length x /\
  List.last (find_peaks x) 0 ∈ find_peaks x /\
  List.last (find_peaks (map Qopp x)) 0 ∈ find_peaks (map Qopp x) /\
  v = Qabs (nth (List.last (find_peaks x) 0) x 0%Q
            - nth (List.last (find_peaks (map Qopp x)) 0) x 0%Q).
Proof.
  intros Hv.
  assert (Hsome : ~ (length x < 10 \/ find_peaks x = [] \/
                     find_peaks (map Qopp x) = [])).
  { intros Hnone. apply compute_bva_none in Hnone. congruence. }
  assert (Hlen : 10 <= length x) by lia.
  assert (Hp : find_peaks x <> []) by tauto.
  assert (Ht : find_peaks (map Qopp x) <> []) by tauto.
  rewrite (compute_bva_some x Hlen Hp Ht) in Hv. injection Hv as <-.
  split; [exact Hlen |].
  split; [apply last_elem_of; exact Hp |].
  split; [apply last_elem_of; exact Ht | reflexivity].
Qed.

(** A detected peak is at least as high as both its neighbours. *)
Lemma find_peaks_local_max (x : list Q) (p : nat) :
  p ∈ find_peaks x ->
  1 <= p /\ p + 1 < length x /\
  (nth (p - 1) x 0 <= nth p x 0)%Q /\ (nth (p + 1) x 0 <= nth p x 0)%Q.
Proof.
  intros Hp. destruct (find_peaks_sound x p Hp) as (l & r & Htop & ->).
  destruct Htop as (Hl & Hlr & Hr & Hup & Hflat & Hdown).
  pose proof (midpoint_bounds l r Hlr) as Hm.
  set (m := midpoint l r) in *.
  pose proof (Hflat m ltac:(lia)) as Hmid.
  split; [lia |]. split; [lia |]. split.
  - destruct (Nat.eq_dec m l) as [Heq | Hne].
    + rewrite Heq. lra.
    + pose proof (Hflat (m - 1) ltac:(lia)). lra.
  - destruct (Nat.eq_dec m r) as [Heq | Hne].
    + rewrite Heq in *. lra.
    + pose proof (Hflat (m + 1) ltac:(lia)). lra.
Qed.

(** X14: when [compute_bva] returns a value, that value is the distance
    between two samples that are not at either end of the window, so it is
    never negative and never more than the spread of the window: with every
    sample between [lo] and [hi], the BVA is between 0 and [hi - lo]. *)
Theorem X14_bva_within_range (x : list Q) (lo hi v : Q) :
  (forall i, i < length x -> (lo <= nth i x 0 <= hi)%Q) ->
  compute_bva x = Some v ->
  (0 <= v <= hi - lo)%Q /\
  exists p t,
    1 <= p /\ p + 1 < length x /\ 1 <= t /\ t + 1 < length x /\
    v = Qabs (nth p x 0%Q - nth t x 0%Q).
Proof.
  intros Hrange Hv.
  destruct (compute_bva_value x v Hv) as (Hlen & Hp & Ht & ->).
  destruct (find_peaks_interior x _ Hp) as [Hp1 Hp2].
  destruct (find_peaks_interior (map Qopp x) _ Ht) as [Ht1 Ht2].
  rewrite length_map in Ht2.
  set (p := List.last (find_peaks x) 0) in *.
  set (t := List.last (find_peaks (map Qopp x)) 0) in *.
  split.
  - pose proof (Hrange p ltac:(lia)). pose proof (Hrange t ltac:(lia)).
    split; [apply Qabs_nonneg |].
    apply Qabs_Qle_condition. split; lra.
  - exists p, t. repeat split; assumption.
Qed.

Lemma X14_witness :
  (0 <= 4 <= 9 - 1)%Q.
Proof.
  apply (X14_bva_within_range spec_example 1 9 4).
  - intros i Hi. simpl in Hi.
    do 10 (destruct i as [| i]; [split; discriminate |]). lia.
  - reflexivity.
Defined.

(** X15: the sample [compute_bva] takes as last peak is at least as large
    as the samples just before and just after it, and the sample it takes as
    last trough is at most as large as the samples just before and just
    after it; neither is the first or the last sample of the window. *)
Theorem X15_bva_uses_local_extrema (x : list Q) (v : Q) :
  compute_bva x = Some v ->
  exists p t,
    v = Qabs (nth p x 0%Q - nth t x 0%Q) /\
    1 <= p /\ p + 1 < length x /\
    (nth (p - 1) x 0 <= nth p x 0)%Q /\ (nth (p + 1) x 0 <= nth p x 0)%Q /\
    1 <= t /\ t + 1 < length x /\
    (nth t x 0 <= nth (t - 1) x 0)%Q /\ (nth t x 0 <= nth (t + 1) x 0)%Q.
Proof.
  intros Hv.
  destruct (compute_bva_value x v Hv) as (Hlen & Hp & Ht & ->).
  destruct (find_peaks_local_max x _ Hp) as (Hp1 & Hp2 & Hp3 & Hp4).
  destruct (find_peaks_local_max (map Qopp x) _ Ht) as (Ht1 & Ht2 & Ht3 & Ht4).
  rewrite length_map in Ht2. rewrite !nth_map_Qopp in Ht3, Ht4.
  eexists _, _. split; [reflexivity |].
  repeat split; try assumption; lra.
Qed.

Lemma X15_witness :
  exists p t,
    4%Q = Qabs (nth p spec_example 0%Q - nth t spec_example 0%Q) /\
    1 <= p /\ p + 1 < length spec_example /\
    (nth (p - 1) spec_example 0 <= nth p spec_example 0)%Q /\
    (nth (p + 1) spec_example 0 <= nth p spec_example 0)%Q /\
    1 <= t /\ t + 1 < length spec_example /\
    (nth t spec_example 0 <= nth (t - 1) spec_example 0)%Q /\
    (nth t spec_example 0 <= nth (t + 1) spec_example 0)%Q.
Proof.
  apply (X15_bva_uses_local_extrema spec_example 4). reflexivity.
Defined.

(** The scan only compares samples: two sequences of the same length whose
    samples compare alike have the same peaks. *)
Section SameOrder.
Variables x y : list Q.
Hypothesis same_length : length x = length y.
Hypothesis same_lt : forall i j, i < length x -> j < length x ->
  Qlt_bool (nth i x 0%Q) (nth j x 0%Q) = Qlt_bool (nth i y 0%Q) (nth j y 0%Q).
Hypothesis same_eq : forall i j, i < length x -> j < length x ->
  Qeq_bool (nth i x 0%Q) (nth j x 0%Q) = Qeq_bool (nth i y 0%Q) (nth j y 0%Q).

Lemma look_ahead_same (fuel i i_max a : nat) :
  i < length x -> i_max < length x ->
  look_ahead fuel x i i_max a = look_ahead fuel y i i_max a.
Proof.
  intros Hi Hmax. revert a. induction fuel as [| fuel IH]; intros a; [reflexivity |].
  simpl. destruct (Nat.ltb_spec a i_max) as [Ha | Ha]; [| reflexivity].
  simpl. rewrite same_eq by lia. rewrite IH. reflexivity.
Qed.

Lemma local_maxima_loop_same (fuel i_max i : nat) :
  1 <= i -> i_max < length x ->
  local_maxima_loop fuel x i_max i = local_maxima_loop fuel y i_max i.
Proof.
  intros Hi Hmax. revert i Hi. induction fuel as [| fuel IH]; intros i Hi; [reflexivity |].
  simpl. destruct (Nat.ltb_spec i i_max) as [Hlt | Hge]; [| reflexivity].
  rewrite <- same_length.
  rewrite <- (look_ahead_same (length x) i i_max (i + 1)) by lia.
  pose proof (look_ahead_ge x i i_max (length x) (i + 1)) as Hge.
  pose proof (look_ahead_le x i i_max (length x) (i + 1) ltac:(lia)) as Hle.
  rewrite <- (same_lt (i - 1) i) by lia.
  rewrite <- (same_lt (look_ahead (length x) x i i_max (i + 1)) i) by lia.
  destruct (Qlt_bool (nth (i - 1) x 0%Q) (nth i x 0%Q)); [| apply IH; lia].
  destruct (Qlt_bool _ _); [f_equal |]; apply IH; lia.
Qed.

Lemma find_peaks_same : find_peaks x = find_peaks y.
Proof.
  unfold find_peaks, local_maxima_1d. rewrite <- same_length.
  destruct (Nat.eq_dec (length x) 0) as [Hz | Hnz].
  - rewrite Hz. reflexivity.
  - apply local_maxima_loop_same; lia.
Qed.
End SameOrder.

Lemma nth_map_in (f : Q -> Q) (x : list Q) (i : nat) :
  i < length x -> nth i (map f x) 0%Q = f (nth i x 0%Q).
Proof.
  intros Hi. rewrite (nth_indep (map f x) 0%Q (f 0%Q)) by (rewrite length_map; exact Hi).
  apply map_nth.
Qed.

Lemma bool_eq_iff (a b : bool) : (a = true <-> b = true) -> a = b.
Proof. destruct a, b; intuition congruence. Qed.

Section Affine.
Variables k c : Q.
Hypothesis k_pos : (0 < k)%Q.
Local Abbreviation f := (affine k c).

Lemma affine_lt (a b : Q) : (f a < f b)%Q <-> (a < b)%Q.
Proof.
  unfold affine. rewrite Qplus_lt_l. apply Qmult_lt_l. exact k_pos.
Qed.

Lemma affine_eq (a b : Q) : (f a == f b)%Q <-> (a == b)%Q.
Proof.
  unfold affine. rewrite Qplus_inj_r. apply Qmult_inj_l.
  intros Hz. rewrite Hz in k_pos. discriminate k_pos.
Qed.

Lemma find_peaks_affine (x : list Q) :
  find_peaks (map f x) = find_peaks x.
Proof.
  symmetry. apply find_peaks_same.
  - rewrite length_map. reflexivity.
  - intros i j Hi Hj. rewrite !nth_map_in by assumption.
    apply bool_eq_iff. rewrite !Qlt_bool_true. symmetry. apply affine_lt.
  - intros i j Hi Hj. rewrite !nth_map_in by assumption.
    apply bool_eq_iff. rewrite !Qeq_bool_true. symmetry. apply affine_eq.
Qed.

Lemma find_troughs_affine (x : list Q) :
  find_peaks (map Qopp (map f x)) = find_peaks (map Qopp x).
Proof.
  symmetry. apply find_peaks_same.
  - rewrite !length_map. reflexivity.
  - intros i j Hi Hj. rewrite length_map in Hi, Hj.
    rewrite !nth_map_Qopp, !nth_map_in by assumption.
    apply bool_eq_iff. rewrite !Qlt_bool_true.
    pose proof (affine_lt (nth j x 0%Q) (nth i x 0%Q)). split; intros H'; lra.
  - intros i j Hi Hj. rewrite length_map in Hi, Hj.
    rewrite !nth_map_Qopp, !nth_map_in by assumption.
    apply bool_eq_iff. rewrite !Qeq_bool_true.
    pose proof (affine_eq (nth i x 0%Q) (nth j x 0%Q)). split; intros H'; lra.
Qed.

Lemma compute_bva_affine (x : list Q) :
  match compute_bva x, compute_bva (map f x) with
  | Some v, Some v' => (v' == k * v)%Q
  | None, None => True
  | _, _ => False
  end.
Proof.
  destruct (compute_bva x) as [v |] eqn:Hx.
  - destruct (compute_bva_value x v Hx) as (Hlen & Hp & Ht & ->).
    destruct (find_peaks_interior x _ Hp) as [_ Hp2].
    destruct (find_peaks_interior (map Qopp x) _ Ht) as [_ Ht2].
    rewrite length_map in Ht2.
    assert (Hpe : find_peaks x <> []) by (intros E; rewrite E in Hp; inversion Hp).
    assert (Hte : find_peaks (map Qopp x) <> [])
      by (intros E; rewrite E in Ht; inversion Ht).
    rewrite (compute_bva_some (map f x))
      by (rewrite ?length_map, ?find_peaks_affine, ?find_troughs_affine; assumption).
    rewrite find_peaks_affine, find_troughs_affine.
    rewrite !nth_map_in by lia. unfold affine.
    set (a := nth (List.last (find_peaks x) 0) x 0%Q).
    set (b := nth (List.last (find_peaks (map Qopp x)) 0) x 0%Q).
    assert (Hd : (k * a + c - (k * b + c) == k * (a - b))%Q) by ring.
    rewrite Hd, Qabs_Qmult. rewrite (Qabs_pos k) by lra. reflexivity.
  - apply compute_bva_none in Hx.
    assert (Hnone : compute_bva (map f x) = None).
    { apply compute_bva_none.
      rewrite length_map, find_peaks_affine, find_troughs_affine. exact Hx. }
    rewrite Hnone. exact I.
Qed.
End Affine.


